(** * The realtime-database plugin of vuefire ([src/vuefire/rtdb.ts])

    A shallow embedding of the binding orchestration layer: the option
    merge, the per-instance binding registry, [bind], [unbind], the public
    [rtdbBind] / [rtdbUnbind] methods and the lifecycle hooks
    [beforeCreate], [created] and [beforeDestroy].

    The synchronization engines ([rtdbBindAsArray], [rtdbBindAsObject]) and
    the default options ([rtdbOptions]) are imported by the source from
    ['../core']; they are parameters of the development (record [Engines]).
    Every call that crosses that boundary is logged in a trace, so that the
    order of teardowns and engine invocations can be stated. *)

From Stdlib Require Import ZArith NArith Ascii.
From stdpp Require Import gmap strings list fin_maps.

Open Scope string_scope.
Open Scope list_scope.

#[local] Set Warnings "-register-all".

(** ** JavaScript values *)

(** The values that the orchestration layer inspects: it asks of a value
    whether it is truthy, whether it is an array and whether it is a
    function, nothing else. Numbers are integers here (no NaN, no
    fractions); a function value is named by a number. *)
Inductive value : Type :=
| VUndefined
| VNull
| VBool (b : bool)
| VNum (n : Z)
| VStr (s : string)
| VArray (items : list value)
| VObject (fields : list (string * value))
| VFunction (f : nat).

(** [Array.isArray(v)] *)
Definition isArray (v : value) : bool :=
  match v with VArray _ => true | _ => false end.

(** [typeof v === 'function'] *)
Definition typeof_function (v : value) : bool :=
  match v with VFunction _ => true | _ => false end.

(** ToBoolean, as applied by [c ? a : b]. *)
Definition truthy (v : value) : bool :=
  match v with
  | VUndefined | VNull => false
  | VBool b => b
  | VNum n => negb (n =? 0)%Z
  | VStr s => negb (String.eqb s "")
  | VArray _ | VObject _ | VFunction _ => true
  end.

(** Reading a property of a plain object: [o.k] is [undefined] when [o] has
    no property [k]. *)
Definition prop (o : gmap string value) (k : string) : value :=
  default VUndefined (o !! k).

(** [Object.assign(target, ...sources)] on plain data objects: the own
    properties of each source are written to the target, from left to right;
    a source that is [undefined] (here [None]) is skipped. *)
Definition Object_assign (target : gmap string value)
    (sources : list (option (gmap string value))) : gmap string value :=
  foldl (fun t s => match s with Some o => o ∪ t | None => t end) target sources.

(** ** Objects whose keys are enumerated

    [for (const key in o)] visits the own keys of an ordinary object in the
    order of the language: first the keys that are array indices, in
    ascending numeric order, then the other keys in the order in which they
    were created. An object that the source enumerates is therefore kept as
    an association list in creation order. *)
Module Ordered.

Definition obj (V : Type) : Type := list (string * V).

Definition empty {V : Type} : obj V := [].

(** [o[k]] *)
Fixpoint get {V : Type} (o : obj V) (k : string) : option V :=
  match o with
  | [] => None
  | (k', v) :: o' => if String.eqb k' k then Some v else get o' k
  end.

(** [o[k] = v]: an existing property keeps its place. *)
Fixpoint set {V : Type} (o : obj V) (k : string) (v : V) : obj V :=
  match o with
  | [] => [(k, v)]
  | (k', v') :: o' =>
      if String.eqb k' k then (k', v) :: o' else (k', v') :: set o' k v
  end.

(** [delete o[k]] *)
Fixpoint delete {V : Type} (o : obj V) (k : string) : obj V :=
  match o with
  | [] => []
  | (k', v') :: o' =>
      if String.eqb k' k then delete o' k else (k', v') :: delete o' k
  end.

Definition digit_of (a : ascii) : option N :=
  let n := N_of_ascii a in
  if ((48 <=? n) && (n <=? 57))%N then Some (n - 48)%N else None.

Fixpoint digits_value (s : string) (acc : N) : option N :=
  match s with
  | EmptyString => Some acc
  | String a s' =>
      match digit_of a with
      | Some d => digits_value s' (10 * acc + d)%N
      | None => None
      end
  end.

(** A key is an array index when it is the canonical decimal form of an
    integer between 0 and 2^32 - 2. *)
Definition array_index (s : string) : option N :=
  match s with
  | EmptyString => None
  | String a s' =>
      if Ascii.eqb a "0"%char && negb (String.eqb s' "") then None
      else match digits_value s 0%N with
           | Some n => if (n <=? 4294967294)%N then Some n else None
           | None => None
           end
  end.

Fixpoint insert_index (p : N * string) (l : list (N * string))
    : list (N * string) :=
  match l with
  | [] => [p]
  | q :: l' => if (fst p <=? fst q)%N then p :: q :: l' else q :: insert_index p l'
  end.

Fixpoint index_keys (ks : list string) : list (N * string) :=
  match ks with
  | [] => []
  | k :: ks' =>
      match array_index k with
      | Some n => insert_index (n, k) (index_keys ks')
      | None => index_keys ks'
      end
  end.

Fixpoint name_keys (ks : list string) : list string :=
  match ks with
  | [] => []
  | k :: ks' =>
      match array_index k with
      | Some _ => name_keys ks'
      | None => k :: name_keys ks'
      end
  end.

(** The keys in the order in which [for ... in] visits them. *)
Definition own_keys {V : Type} (o : obj V) : list string :=
  (index_keys (o.*1)).*2 ++ name_keys (o.*1).

(** An object has each key once. *)
Definition wf {V : Type} (o : obj V) : Prop := NoDup (o.*1).

End Ordered.

(** ** Sources, handles, errors and the trace *)

(** A [database.Reference] is named by its path. *)
Definition Ref : Type := string.

(** [database.Reference | database.Query]: the only member this file reads
    is [.ref], the reference a query was built on (a reference's own [.ref]
    is itself). *)
Inductive Source : Type :=
| Reference (path : Ref)
| Query (path : Ref) (constraint : string).

Definition getRef (refOrQuery : Source) : Ref :=
  match refOrQuery with
  | Reference path => path
  | Query path _ => path
  end.

(** The unsubscribe closure an engine returns, named by a number. *)
Definition Handle : Type := nat.

Inductive error : Type :=
| TypeError               (* reading or calling through null / undefined *)
| Raised (v : value).     (* thrown by an unsubscribe handle *)

(** What crosses the boundary to the external engines. *)
Inductive event : Type :=
| EvBindAsArray (key : string) (collection : Source) (options : gmap string value)
| EvBindAsObject (key : string) (document : Source) (options : gmap string value)
| EvUnsubscribe (h : Handle) (reset : value).

(** How the call of an engine ends: it returns its unsubscribe handle, or
    it throws. *)
Inductive started : Type :=
| Subscribed (h : Handle)
| Failed (v : value).

(** The external collaborators. An engine receives the instance, the key,
    the source and the options; it may write the instance's properties, and
    it returns its unsubscribe handle or throws. A handle called with a
    reset argument may write the instance's properties and may throw.
    Neither has a path to the three registry objects. *)
Record Engines : Type := mkEngines {
  rtdbOptions : gmap string value;
  bindAsArray : string -> Source -> gmap string value ->
                gmap string value -> started * gmap string value;
  bindAsObject : string -> Source -> gmap string value ->
                 gmap string value -> started * gmap string value;
  unsubscribe : Handle -> value -> gmap string value ->
                gmap string value * option value
}.

(** ** The component instance *)

(** [props] are the instance's own properties ([vm[key]]); the three
    registry objects ([firebaseRefs] is [$firebaseRefs]) are [None] while
    they are [undefined] (before [beforeCreate]) or [null] (after
    [beforeDestroy]). *)
Record Instance : Type := mkInstance {
  props : gmap string value;
  firebaseRefs : option (gmap string Ref);
  _firebaseSources : option (gmap string Source);
  _firebaseUnbinds : option (Ordered.obj Handle)
}.

Record World : Type := mkWorld {
  vm : Instance;
  trace : list event
}.

(** ** Computations that change the instance and may throw *)

Inductive outcome (A : Type) : Type :=
| Returns (a : A)
| Throws (e : error).
Arguments Returns {A} a.
Arguments Throws {A} e.

Definition M (A : Type) : Type := World -> World * outcome A.

#[global] Instance M_ret : MRet M := fun A a w => (w, Returns a).

#[global] Instance M_bind : MBind M := fun A B f m w =>
  match m w with
  | (w', Returns a) => f a w'
  | (w', Throws e) => (w', Throws e)
  end.

(** [for (const x of xs) body(x)]: a throw leaves the loop. *)
Fixpoint for_each {A : Type} (xs : list A) (body : A -> M unit) : M unit :=
  match xs with
  | [] => mret tt
  | x :: xs' => body x ≫= fun _ => for_each xs' body
  end.

(** The result of [new Promise(executor)] at the time the constructor
    returns: pending (the engine settles it later through [resolve] or
    [reject]), or already rejected because the executor threw. *)
Inductive promise : Type :=
| Pending
| Rejected (e : error).

(** ** The plugin

    [rtdbPlugin(app, pluginOptions)] installs the two public methods and the
    lifecycle hooks; what it closes over is fixed for the section. *)
Section Plugin.

Variable E : Engines.

(** The second argument of [rtdbPlugin]; [None] when it is omitted. *)
Variable pluginOptions : option (gmap string value).

Definition defaultOptions : gmap string value :=
  <["bindName" := VStr "$rtdbBind"]>
  (<["unbindName" := VStr "$rtdbUnbind"]>
  (<["serialize" := prop (rtdbOptions E) "serialize"]>
  (<["reset" := prop (rtdbOptions E) "reset"]>
  (<["wait" := prop (rtdbOptions E) "wait"]> ∅)))).

(** [Object.assign({}, defaultOptions, pluginOptions)], where an omitted
    [pluginOptions] defaults to [defaultOptions]. *)
Definition globalOptions : gmap string value :=
  Object_assign ∅ [Some defaultOptions; Some (default defaultOptions pluginOptions)].

(** [Object.assign({}, globalOptions, userOptions)] *)
Definition callOptions (userOptions : option (gmap string value))
    : gmap string value :=
  Object_assign ∅ [Some globalOptions; userOptions].

(** *** Steps on the instance *)

(** [vm._firebaseUnbinds[key]]: reading through a registry that is [null]
    is a TypeError; a missing entry reads as [undefined] (here [None]). *)
Definition read_unbind (key : string) : M (option Handle) := fun w =>
  match _firebaseUnbinds (vm w) with
  | Some unbinds => (w, Returns (Ordered.get unbinds key))
  | None => (w, Throws TypeError)
  end.

(** [f(reset)] where [f] was read from the registry: calling [undefined] is
    a TypeError; a handle runs against the instance's properties and may
    throw after that. The call is logged when it is made. *)
Definition call_handle (f : option Handle) (reset : value) : M unit := fun w =>
  match f with
  | None => (w, Throws TypeError)
  | Some h =>
      let '(props', thrown) := unsubscribe E h reset (props (vm w)) in
      let w' :=
        {| vm := {| props := props';
                    firebaseRefs := firebaseRefs (vm w);
                    _firebaseSources := _firebaseSources (vm w);
                    _firebaseUnbinds := _firebaseUnbinds (vm w) |};
           trace := trace w ++ [EvUnsubscribe h reset] |} in
      match thrown with
      | Some v => (w', Throws (Raised v))
      | None => (w', Returns tt)
      end
  end.

(** [delete vm._firebaseSources[key]] *)
Definition delete_source (key : string) : M unit := fun w =>
  match _firebaseSources (vm w) with
  | Some sources =>
      ({| vm := {| props := props (vm w);
                   firebaseRefs := firebaseRefs (vm w);
                   _firebaseSources := Some (delete key sources);
                   _firebaseUnbinds := _firebaseUnbinds (vm w) |};
          trace := trace w |}, Returns tt)
  | None => (w, Throws TypeError)
  end.

(** [delete vm._firebaseUnbinds[key]] *)
Definition delete_unbind (key : string) : M unit := fun w =>
  match _firebaseUnbinds (vm w) with
  | Some unbinds =>
      ({| vm := {| props := props (vm w);
                   firebaseRefs := firebaseRefs (vm w);
                   _firebaseSources := _firebaseSources (vm w);
                   _firebaseUnbinds := Some (Ordered.delete unbinds key) |};
          trace := trace w |}, Returns tt)
  | None => (w, Throws TypeError)
  end.

(** [this._firebaseSources[key] = source] *)
Definition set_source (key : string) (source : Source) : M unit := fun w =>
  match _firebaseSources (vm w) with
  | Some sources =>
      ({| vm := {| props := props (vm w);
                   firebaseRefs := firebaseRefs (vm w);
                   _firebaseSources := Some (<[key := source]> sources);
                   _firebaseUnbinds := _firebaseUnbinds (vm w) |};
          trace := trace w |}, Returns tt)
  | None => (w, Throws TypeError)
  end.

(** [this.$firebaseRefs[key] = ref] *)
Definition set_ref (key : string) (ref : Ref) : M unit := fun w =>
  match firebaseRefs (vm w) with
  | Some refs =>
      ({| vm := {| props := props (vm w);
                   firebaseRefs := Some (<[key := ref]> refs);
                   _firebaseSources := _firebaseSources (vm w);
                   _firebaseUnbinds := _firebaseUnbinds (vm w) |};
          trace := trace w |}, Returns tt)
  | None => (w, Throws TypeError)
  end.

(** *** [bind] ([rtdb.ts], lines 30-65)

    The executor of the promise runs at once: it picks the engine from
    [Array.isArray(vm[key])], calls it, and stores the handle the engine
    returns under [key]. A throw inside the executor rejects the promise
    and ends the executor, and [bind] itself returns: when the engine
    throws, nothing is stored; when the store throws (the registry is
    [null]), the engine has run. *)
Definition bind (key : string) (source : Source) (options : gmap string value)
    : M promise := fun w =>
  let v := vm w in
  let '(unbind, props', ev) :=
    if isArray (prop (props v) key) then
      let '(h, p) := bindAsArray E key source options (props v) in
      (h, p, EvBindAsArray key source options)
    else
      let '(h, p) := bindAsObject E key source options (props v) in
      (h, p, EvBindAsObject key source options) in
  match unbind with
  | Failed thrown =>
      ({| vm := {| props := props';
                   firebaseRefs := firebaseRefs v;
                   _firebaseSources := _firebaseSources v;
                   _firebaseUnbinds := _firebaseUnbinds v |};
          trace := trace w ++ [ev] |}, Returns (Rejected (Raised thrown)))
  | Subscribed unbind =>
      match _firebaseUnbinds v with
      | Some unbinds =>
          ({| vm := {| props := props';
                       firebaseRefs := firebaseRefs v;
                       _firebaseSources := _firebaseSources v;
                       _firebaseUnbinds := Some (Ordered.set unbinds key unbind) |};
              trace := trace w ++ [ev] |}, Returns Pending)
      | None =>
          ({| vm := {| props := props';
                       firebaseRefs := firebaseRefs v;
                       _firebaseSources := _firebaseSources v;
                       _firebaseUnbinds := None |};
              trace := trace w ++ [ev] |}, Returns (Rejected TypeError))
      end
  end.

(** *** [unbind] ([rtdb.ts], lines 67-75) *)
Definition unbind (key : string) (reset : value) : M unit :=
  f ← read_unbind key;
  call_handle f reset;;
  delete_source key;;
  delete_unbind key.

(** *** The public methods ([rtdb.ts], lines 157-193) *)

(** [app.config.globalProperties[unbindName]] *)
Definition rtdbUnbind (key : string) (reset : value) : M unit :=
  unbind key reset.

(** [app.config.globalProperties[bindName]]. The source reaches the unbind
    method through the instance, as [this[unbindName]]: that is
    [rtdbUnbind], which the statement before installed. The two methods are
    taken to be installed under two names (as with the default names) that
    the component does not shadow. *)
Definition rtdbBind (key : string) (source : Source)
    (userOptions : option (gmap string value)) : M promise :=
  let options := callOptions userOptions in
  f ← read_unbind key;
  (if f is Some _ then
     rtdbUnbind key
       (if truthy (prop options "wait") then
          if typeof_function (prop options "reset") then prop options "reset"
          else VBool false
        else prop options "reset")
   else mret tt);;
  promise ← bind key source options;
  set_source key source;;
  set_ref key (getRef source);;
  mret promise.

(** *** The lifecycle hooks ([rtdb.ts], lines 196-227) *)

(** [beforeCreate]: three fresh objects without prototype. *)
Definition beforeCreate : M unit := fun w =>
  ({| vm := {| props := props (vm w);
               firebaseRefs := Some ∅;
               _firebaseSources := Some ∅;
               _firebaseUnbinds := Some Ordered.empty |};
      trace := trace w |}, Returns tt).

(** The [firebase] option of a component: a record of sources, or a function
    of the instance that produces one (or a falsy value, here [None]). *)
Inductive FirebaseOption : Type :=
| Bindings (b : Ordered.obj Source)
| Producer (f : Instance -> option (Ordered.obj Source)).

(** [created]: the bindings are the option itself or what the function
    returns for the instance; without bindings nothing is done; otherwise
    [this[bindName](key, bindings[key], globalOptions)] for each key. *)
Definition created (firebase : option FirebaseOption) : M unit := fun w =>
  let bindings :=
    match firebase with
    | Some (Producer f) => f (vm w)
    | Some (Bindings b) => Some b
    | None => None
    end in
  match bindings with
  | None => (w, Returns tt)
  | Some b =>
      for_each (Ordered.own_keys b)
        (fun key =>
           match Ordered.get b key with
           | Some source => rtdbBind key source (Some globalOptions) ≫= fun _ => mret tt
           | None => mret tt
           end) w
  end.

(** [for (const key in this._firebaseUnbinds)]: the keys are taken when the
    loop starts; enumerating [null] visits nothing. *)
Definition unbind_keys : M (list string) := fun w =>
  (w, Returns (from_option Ordered.own_keys [] (_firebaseUnbinds (vm w)))).

(** The three assignments of [null] that end [beforeDestroy]. *)
Definition discard : M unit := fun w =>
  ({| vm := {| props := props (vm w);
               firebaseRefs := None;
               _firebaseSources := None;
               _firebaseUnbinds := None |};
      trace := trace w |}, Returns tt).

(** [this._firebaseUnbinds[key]()], the body of the loop: the handle is
    called without a reset argument. *)
Definition teardown (key : string) : M unit :=
  f ← read_unbind key; call_handle f VUndefined.

(** [beforeDestroy]: the loop over the handles, then the three [null]s. *)
Definition beforeDestroy : M unit :=
  keys ← unbind_keys;
  for_each keys teardown;;
  discard.

End Plugin.

(** ** Histories of calls

    What the host does with an instance: the three hooks and the two public
    methods, in some order. *)
Inductive call : Type :=
| CallBeforeCreate
| CallCreated (firebase : option FirebaseOption)
| CallBind (key : string) (source : Source)
    (userOptions : option (gmap string value))
| CallUnbind (key : string) (reset : value)
| CallBeforeDestroy.

Definition perform (E : Engines) (pluginOptions : option (gmap string value))
    (c : call) : M unit :=
  match c with
  | CallBeforeCreate => beforeCreate
  | CallCreated firebase => created E pluginOptions firebase
  | CallBind key source userOptions =>
      rtdbBind E pluginOptions key source userOptions ≫= fun _ => mret tt
  | CallUnbind key reset => rtdbUnbind E key reset
  | CallBeforeDestroy => beforeDestroy E
  end.

(** The instance after a history. A call that throws leaves the instance as
    it was at the throw; the next call starts from there. *)
Fixpoint run (E : Engines) (pluginOptions : option (gmap string value))
    (cs : list call) (w : World) : World :=
  match cs with
  | [] => w
  | c :: cs' => run E pluginOptions cs' (perform E pluginOptions c w).1
  end.

(** A call that does not bind [key]. *)
Definition leaves_unbound (key : string) (c : call) : Prop :=
  match c with
  | CallBind k _ _ => k <> key
  | CallCreated (Some (Bindings b)) => Ordered.get b key = None
  | CallCreated (Some (Producer f)) =>
      forall v, from_option (fun b => Ordered.get b key) None (f v) = None
  | _ => True
  end.

(** ** Reading the registry

    What each of the three mappings holds for a key; nothing when the
    mapping is [null] or has no such entry. *)

Definition bound_handle (w : World) (key : string) : option Handle :=
  from_option (fun unbinds => Ordered.get unbinds key) None (_firebaseUnbinds (vm w)).

Definition source_of (w : World) (key : string) : option Source :=
  from_option (fun sources => sources !! key) None (_firebaseSources (vm w)).

Definition ref_of (w : World) (key : string) : option Ref :=
  from_option (fun refs => refs !! key) None (firebaseRefs (vm w)).

(** ** Reading the trace *)

(** The events a computation added to the trace. *)
Definition news (w w' : World) : list event :=
  drop (length (trace w)) (trace w').

(** The teardowns among some events: which handle, with which argument. *)
Definition teardowns (evs : list event) : list (Handle * value) :=
  omap (fun ev => match ev with
                  | EvUnsubscribe h reset => Some (h, reset)
                  | _ => None
                  end) evs.

(** All three mappings exist: the instance is between [beforeCreate] and
    [beforeDestroy]. *)
Definition live (w : World) : Prop :=
  is_Some (firebaseRefs (vm w)) /\
  is_Some (_firebaseSources (vm w)) /\
  is_Some (_firebaseUnbinds (vm w)).

(** All three mappings are gone. *)
Definition discarded (w : World) : Prop :=
  firebaseRefs (vm w) = None /\
  _firebaseSources (vm w) = None /\
  _firebaseUnbinds (vm w) = None.

(** The engine [bind] selects, run on the instance's properties: how its
    call ends, the properties it leaves, and the event this logs. *)
Definition engine_run (E : Engines) (key : string) (source : Source)
    (options p : gmap string value) : started * gmap string value * event :=
  if isArray (prop p key)
  then (bindAsArray E key source options p, EvBindAsArray key source options)
  else (bindAsObject E key source options p, EvBindAsObject key source options).

(** The argument [rtdbBind] gives to the teardown of a prior binding. *)
Definition rebind_argument (options : gmap string value) : value :=
  if truthy (prop options "wait") then
    if typeof_function (prop options "reset") then prop options "reset"
    else VBool false
  else prop options "reset".

(** The unsubscribe mapping after the executor of [bind]: the handle is
    stored when the engine returned one. *)
Definition stored_in (unbinds : Ordered.obj Handle) (key : string)
    (res : started) : Ordered.obj Handle :=
  match res with
  | Subscribed h => Ordered.set unbinds key h
  | Failed _ => unbinds
  end.

(** The promise [bind] returns on an instance that has its registry. *)
Definition promise_of (res : started) : promise :=
  match res with
  | Subscribed _ => Pending
  | Failed v => Rejected (Raised v)
  end.

(** The engines of [E] return a handle, whatever they are called with. *)
Definition dependable (E : Engines) : Prop :=
  (forall key source options p, exists h,
     (bindAsArray E key source options p).1 = Subscribed h)
  /\ (forall key source options p, exists h,
        (bindAsObject E key source options p).1 = Subscribed h).

(** The handles of a registry in the order in which [for ... in] reaches
    their keys. *)
Definition handles_in_order (unbinds : Ordered.obj Handle) (keys : list string)
    : list Handle :=
  omap (Ordered.get unbinds) keys.

(** A handle returns normally, whatever the instance's properties are. *)
Definition returns (E : Engines) (h : Handle) (reset : value) : Prop :=
  forall p, (unsubscribe E h reset p).2 = None.

(** A handle throws [v], whatever the instance's properties are. *)
Definition throws (E : Engines) (h : Handle) (reset v : value) : Prop :=
  forall p, (unsubscribe E h reset p).2 = Some v.

(** ** A concrete setting

    Engines in the manner of vuefire's core, for running the definitions:
    the collection engine starts from an empty array unless [wait] is set,
    a handle is named by the length of the path it listens on, and the
    handles picked by [faulty] throw when they are called. *)
Module Demo.

Definition handle_of (source : Source) : Handle := String.length (getRef source).

Definition engines (faulty : Handle -> bool) : Engines :=
  {| rtdbOptions :=
       <["reset" := VBool true]>
       (<["serialize" := VFunction 0]>
       (<["wait" := VBool false]> ∅));
     bindAsArray := fun key source options p =>
       (Subscribed (handle_of source),
        if truthy (prop options "wait") then p else <[key := VArray []]> p);
     bindAsObject := fun key source options p =>
       (Subscribed (handle_of source), p);
     unsubscribe := fun h reset p =>
       (p, if faulty h then Some (VStr "detach failed") else None) |}.

Definition sound : Engines := engines (fun _ => false).

(** The handle on a path of length 1 throws. *)
Definition brittle : Engines := engines (Nat.eqb 1).

(** A component with [items = []] and [profile = {}], before [beforeCreate]. *)
Definition component : World :=
  {| vm := {| props := <["items" := VArray []]> (<["profile" := VObject []]> ∅);
              firebaseRefs := None;
              _firebaseSources := None;
              _firebaseUnbinds := None |};
     trace := [] |}.

(** The world after a computation, whatever its outcome. *)
Definition after {A : Type} (m : M A) (w : World) : World := fst (m w).

(** The component once [beforeCreate] has run. *)
Definition started : World := after beforeCreate component.

(** [this.$rtdbBind('profile', db.ref('users/1'))] on the started component;
    the handle of the binding is 7. *)
Definition profile_bound (E : Engines) : World :=
  after (rtdbBind E None "profile" (Reference "users/1") None) started.

(** The component created with
    [firebase: { items: db.ref('i').limitToLast(10), profile: db.ref('me') }];
    the handles of the two bindings are 1 and 2. *)
Definition declared (E : Engines) : World :=
  after (created E None
           (Some (Bindings [("items", Query "i" "limitToLast(10)");
                            ("profile", Reference "me")])))
        started.

End Demo.

(** ** Statements about the registry *)

(** A key has an unsubscribe handle exactly when it has a source. *)
Definition registry_in_step (w : World) : Prop :=
  forall k, is_Some (bound_handle w k) <-> is_Some (source_of w k).

(** The canonical-reference mapping has an entry only for a bound key. *)
Definition refs_only_while_bound (w : World) : Prop :=
  forall k, is_Some (ref_of w k) -> is_Some (bound_handle w k).

(** Every bound key has its canonical reference. *)
Definition bound_keys_have_refs (w : World) : Prop :=
  forall k, is_Some (bound_handle w k) -> is_Some (ref_of w k).

(** Every key with an unsubscribe handle has a source. *)
Definition bound_keys_have_sources (w : World) : Prop :=
  forall k, is_Some (bound_handle w k) -> is_Some (source_of w k).

(** Every key with a source has its canonical reference. *)
Definition sources_have_refs (w : World) : Prop :=
  forall k, is_Some (source_of w k) -> is_Some (ref_of w k).

(** The state of the registry at the boundary of a public operation: the
    three mappings exist together or not at all, every key with a handle
    has a source, every key with a source has its reference, and the
    unsubscribe mapping has each key once. *)
Definition consistent (w : World) : Prop :=
  (live w \/ discarded w) /\ bound_keys_have_sources w /\ sources_have_refs w
  /\ from_option Ordered.wf True (_firebaseUnbinds (vm w)).

(** A destruction in which a handle failed still called the handle of
    every key that was bound when it started. *)
Definition remaining_teardowns_processed (E : Engines) (w : World) : Prop :=
  forall e, (beforeDestroy E w).2 = Throws e ->
  forall k h, bound_handle w k = Some h ->
    EvUnsubscribe h VUndefined ∈ news w (beforeDestroy E w).1.

(** ** The mutation operations ([rtdb.ts], lines 24-28)

    [ops.add] and [ops.remove] are calls of [Array.prototype.splice] on the
    bound array; [ops.set] is [walkSet] of ['../core'] and is not part of
    this file. *)

(** [array.splice(start, deleteCount, ...items)] for an integer [start]:
    a negative [start] counts from the end, the start is clamped to the
    array and the count to what is left after it. The array is changed in
    place: the result is the array after the call and the value the call
    returns, the elements it deleted. *)
Definition splice {A : Type} (array : list A) (start deleteCount : Z)
    (items : list A) : list A * list A :=
  let len := Z.of_nat (length array) in
  let actualStart :=
    if (start <? 0)%Z then Z.max (len + start) 0 else Z.min start len in
  let actualDeleteCount := Z.min (Z.max deleteCount 0) (len - actualStart) in
  let s := Z.to_nat actualStart in
  let d := Z.to_nat actualDeleteCount in
  (take s array ++ items ++ drop (s + d) array, take d (drop s array)).

Module ops.

(** [add: (array, index, data) => array.splice(index, 0, data)] *)
Definition add (array : list value) (index : Z) (data : value)
    : list value * list value :=
  splice array index 0 [data].

(** [remove: (array, index) => array.splice(index, 1)] *)
Definition remove (array : list value) (index : Z)
    : list value * list value :=
  splice array index 1 [].

End ops.

(** Engines and handles that leave the instance's properties alone. *)
Definition inert (E : Engines) : Prop :=
  (forall key source options p, (bindAsArray E key source options p).2 = p)
  /\ (forall key source options p, (bindAsObject E key source options p).2 = p)
  /\ (forall h reset p, (unsubscribe E h reset p).1 = p).


(** Engines that hand out a handle and do nothing else, with handles that
    do nothing. *)
Definition quiet_engines : Engines :=
  {| rtdbOptions := ∅;
     bindAsArray := fun key source options p =>
       (Subscribed (Demo.handle_of source), p);
     bindAsObject := fun key source options p =>
       (Subscribed (Demo.handle_of source), p);
     unsubscribe := fun h reset p => (p, None) |}.

(** Engines that refuse the empty path: on a source whose reference is the
    root the call throws; otherwise they hand out a handle. *)
Definition strict_engines : Engines :=
  {| rtdbOptions := ∅;
     bindAsArray := fun key source options p =>
       (if String.eqb (getRef source) ""
        then Failed (VStr "permission denied")
        else Subscribed (Demo.handle_of source), p);
     bindAsObject := fun key source options p =>
       (if String.eqb (getRef source) ""
        then Failed (VStr "permission denied")
        else Subscribed (Demo.handle_of source), p);
     unsubscribe := fun h reset p => (p, None) |}.

(** * Properties *)

(** ** Option resolution *)

Lemma Object_assign_two (d : gmap string value) (o : option (gmap string value))
    (k : string) :
  Object_assign ∅ [Some d; o] !! k =
  match o with
  | Some o' => match o' !! k with Some v => Some v | None => d !! k end
  | None => d !! k
  end.
Proof.
  unfold Object_assign; simpl.
  destruct o as [o'|]; rewrite ?lookup_union, ?lookup_empty.
  - destruct (o' !! k), (d !! k); reflexivity.
  - destruct (d !! k); reflexivity.
Qed.

(** C9. Option resolution is a field-by-field merge, at both places where
    the source merges options: the plugin-wide options over the defaults
    (line 154) and the per-call options over the plugin-wide ones
    (line 171). A field present in the overrides takes the override's
    value; a field the overrides do not have takes the value of the
    defaults. The merge is a total function of its two arguments. *)
Theorem option_resolution_is_fieldwise_merge
    (E : Engines) (pluginOptions userOptions : option (gmap string value))
    (k : string) :
  globalOptions E pluginOptions !! k =
    match pluginOptions with
    | Some o => match o !! k with Some v => Some v | None => defaultOptions E !! k end
    | None => defaultOptions E !! k
    end
  /\ callOptions E pluginOptions userOptions !! k =
    match userOptions with
    | Some o =>
        match o !! k with
        | Some v => Some v
        | None => globalOptions E pluginOptions !! k
        end
    | None => globalOptions E pluginOptions !! k
    end.
Proof.
  split.
  - unfold globalOptions. rewrite Object_assign_two.
    destruct pluginOptions as [o|]; simpl.
    + reflexivity.
    + destruct (defaultOptions E !! k); reflexivity.
  - unfold callOptions. apply Object_assign_two.
Qed.

(** ** Enumerated objects *)

Lemma get_set_eq {V : Type} (o : Ordered.obj V) (k : string) (v : V) :
  Ordered.get (Ordered.set o k v) k = Some v.
Proof.
  induction o as [|[k' v'] o IH]; simpl.
  - rewrite String.eqb_refl. reflexivity.
  - destruct (String.eqb k' k) eqn:Hk; simpl; rewrite Hk; auto.
Qed.

Lemma get_set_ne {V : Type} (o : Ordered.obj V) (k k' : string) (v : V) :
  k <> k' -> Ordered.get (Ordered.set o k v) k' = Ordered.get o k'.
Proof.
  intros Hne. induction o as [|[k0 v0] o IH]; simpl.
  - apply String.eqb_neq in Hne. rewrite Hne. reflexivity.
  - destruct (String.eqb k0 k) eqn:Hk; simpl.
    + apply String.eqb_eq in Hk. subst k0.
      apply String.eqb_neq in Hne. rewrite Hne. reflexivity.
    + rewrite IH. reflexivity.
Qed.

Lemma get_delete_eq {V : Type} (o : Ordered.obj V) (k : string) :
  Ordered.get (Ordered.delete o k) k = None.
Proof.
  induction o as [|[k' v'] o IH]; simpl; auto.
  destruct (String.eqb k' k) eqn:Hk; simpl; rewrite ?Hk; auto.
Qed.

Lemma get_delete_ne {V : Type} (o : Ordered.obj V) (k k' : string) :
  k <> k' -> Ordered.get (Ordered.delete o k) k' = Ordered.get o k'.
Proof.
  intros Hne. induction o as [|[k0 v0] o IH]; simpl; auto.
  destruct (String.eqb k0 k) eqn:Hk; simpl.
  - apply String.eqb_eq in Hk. subst k0.
    apply String.eqb_neq in Hne. rewrite Hne. exact IH.
  - rewrite IH. reflexivity.
Qed.

Lemma get_is_Some {V : Type} (o : Ordered.obj V) (k : string) :
  is_Some (Ordered.get o k) <-> k ∈ o.*1.
Proof.
  induction o as [|[k' v'] o IH]; simpl.
  - split; [intros [? ?]; discriminate | intros H; inversion H].
  - rewrite elem_of_cons. destruct (String.eqb k' k) eqn:Hk.
    + apply String.eqb_eq in Hk. split; eauto.
    + apply String.eqb_neq in Hk. rewrite IH. split; [auto|].
      intros [->|H]; [congruence | exact H].
Qed.

Lemma set_keys {V : Type} (o : Ordered.obj V) (k x : string) (v : V) :
  x ∈ (Ordered.set o k v).*1 <-> x = k \/ x ∈ o.*1.
Proof.
  rewrite <- !get_is_Some. destruct (decide (k = x)) as [->|Hne].
  - rewrite get_set_eq. split; eauto.
  - rewrite get_set_ne by exact Hne. split; [auto|].
    intros [->|H]; [congruence | exact H].
Qed.

Lemma delete_keys {V : Type} (o : Ordered.obj V) (k x : string) :
  x ∈ (Ordered.delete o k).*1 <-> x <> k /\ x ∈ o.*1.
Proof.
  rewrite <- !get_is_Some. destruct (decide (k = x)) as [->|Hne].
  - rewrite get_delete_eq. split; [intros [? ?]; discriminate | intros [? _]; congruence].
  - rewrite get_delete_ne by exact Hne. split; [auto | intros [_ H]; exact H].
Qed.

Lemma wf_set {V : Type} (o : Ordered.obj V) (k : string) (v : V) :
  Ordered.wf o -> Ordered.wf (Ordered.set o k v).
Proof.
  unfold Ordered.wf. induction o as [|[k' v'] o IH]; simpl; intros Hwf.
  - apply NoDup_singleton.
  - apply NoDup_cons in Hwf as [Hk' Hnd].
    destruct (String.eqb k' k) eqn:Hk; simpl.
    + apply NoDup_cons. split; assumption.
    + apply NoDup_cons. split; [|exact (IH Hnd)].
      rewrite set_keys. intros [->|Hin]; [|contradiction].
      rewrite String.eqb_refl in Hk. discriminate.
Qed.

Lemma wf_delete {V : Type} (o : Ordered.obj V) (k : string) :
  Ordered.wf o -> Ordered.wf (Ordered.delete o k).
Proof.
  unfold Ordered.wf. induction o as [|[k' v'] o IH]; simpl; intros Hwf.
  - exact Hwf.
  - apply NoDup_cons in Hwf as [Hk' Hnd].
    destruct (String.eqb k' k) eqn:Hk; simpl; [exact (IH Hnd)|].
    apply NoDup_cons. split; [|exact (IH Hnd)].
    rewrite delete_keys. intros [_ Hin]. contradiction.
Qed.






(** ** The unbind operation *)

Section UnbindFacts.

Variable E : Engines.

Lemma unbind_unbound (key : string) (reset : value) (w : World) :
  bound_handle w key = None ->
  unbind E key reset w = (w, Throws TypeError).
Proof.
  unfold bound_handle, unbind, mbind, M_bind, read_unbind.
  destruct (_firebaseUnbinds (vm w)) as [unbinds|]; simpl; [|reflexivity].
  intros ->. reflexivity.
Qed.

Lemma unbind_handle_throws (key : string) (reset : value) (w : World)
    (h : Handle) (props' : gmap string value) (v : value) :
  bound_handle w key = Some h ->
  unsubscribe E h reset (props (vm w)) = (props', Some v) ->
  unbind E key reset w =
    ({| vm := {| props := props';
                 firebaseRefs := firebaseRefs (vm w);
                 _firebaseSources := _firebaseSources (vm w);
                 _firebaseUnbinds := _firebaseUnbinds (vm w) |};
        trace := trace w ++ [EvUnsubscribe h reset] |}, Throws (Raised v)).
Proof.
  unfold bound_handle, unbind, mbind, M_bind, read_unbind, call_handle.
  destruct (_firebaseUnbinds (vm w)) as [unbinds|] eqn:HU; simpl; [|discriminate].
  intros -> ->. simpl. rewrite HU. reflexivity.
Qed.

Lemma unbind_handle_returns (key : string) (reset : value) (w : World)
    (h : Handle) (props' : gmap string value)
    (unbinds : Ordered.obj Handle) (sources : gmap string Source) :
  _firebaseUnbinds (vm w) = Some unbinds ->
  _firebaseSources (vm w) = Some sources ->
  Ordered.get unbinds key = Some h ->
  unsubscribe E h reset (props (vm w)) = (props', None) ->
  unbind E key reset w =
    ({| vm := {| props := props';
                 firebaseRefs := firebaseRefs (vm w);
                 _firebaseSources := Some (delete key sources);
                 _firebaseUnbinds := Some (Ordered.delete unbinds key) |};
        trace := trace w ++ [EvUnsubscribe h reset] |}, Returns tt).
Proof.
  intros HU HS Hh Hrun.
  unfold unbind, mbind, M_bind, read_unbind, call_handle, delete_source,
    delete_unbind.
  rewrite HU, Hh, Hrun. simpl. rewrite HS. simpl. rewrite HU. reflexivity.
Qed.

End UnbindFacts.

(** ** The bind operation *)

Section BindFacts.

Variable E : Engines.

(** C3. [bind] chooses the engine from the instance's own value at the key
    and from nothing else: when [vm[key]] is an array the collection engine
    is the one invoked (and its handle the one stored, when it returns one
    and there is a registry to store it in), for any other value the
    single-value engine, whatever the source is. *)
Theorem bind_mode_from_local_value
    (key : string) (source : Source) (options : gmap string value) (w : World) :
  let w' := fst (bind E key source options w) in
  let stored (res : started) :=
    match res with
    | Subscribed h =>
        match _firebaseUnbinds (vm w) with Some _ => Some h | None => None end
    | Failed _ => bound_handle w key
    end in
  if isArray (prop (props (vm w)) key) then
    news w w' = [EvBindAsArray key source options]
    /\ props (vm w') = snd (bindAsArray E key source options (props (vm w)))
    /\ bound_handle w' key =
         stored (fst (bindAsArray E key source options (props (vm w))))
  else
    news w w' = [EvBindAsObject key source options]
    /\ props (vm w') = snd (bindAsObject E key source options (props (vm w)))
    /\ bound_handle w' key =
         stored (fst (bindAsObject E key source options (props (vm w)))).
Proof.
  unfold bind, news, bound_handle.
  destruct (isArray (prop (props (vm w)) key)).
  - destruct (bindAsArray E key source options (props (vm w))) as [[h|v] p];
      destruct (_firebaseUnbinds (vm w)) as [unbinds|]; simpl;
      rewrite drop_app_length; repeat split; auto using get_set_eq.
  - destruct (bindAsObject E key source options (props (vm w))) as [[h|v] p];
      destruct (_firebaseUnbinds (vm w)) as [unbinds|]; simpl;
      rewrite drop_app_length; repeat split; auto using get_set_eq.
Qed.

End BindFacts.

(** ** The public bind entry point *)

Section RebindFacts.

Variable E : Engines.
Variable pluginOptions : option (gmap string value).

Lemma bind_run (key : string) (source : Source) (options : gmap string value)
    (w : World) (unbinds : Ordered.obj Handle) :
  _firebaseUnbinds (vm w) = Some unbinds ->
  bind E key source options w =
    let '(res, p, ev) := engine_run E key source options (props (vm w)) in
    ({| vm := {| props := p;
                 firebaseRefs := firebaseRefs (vm w);
                 _firebaseSources := _firebaseSources (vm w);
                 _firebaseUnbinds := Some (stored_in unbinds key res) |};
        trace := trace w ++ [ev] |}, Returns (promise_of res)).
Proof.
  intros HU. unfold bind, engine_run.
  destruct (isArray (prop (props (vm w)) key)).
  - destruct (bindAsArray E key source options (props (vm w))) as [[h|v] p];
      rewrite HU; reflexivity.
  - destruct (bindAsObject E key source options (props (vm w))) as [[h|v] p];
      rewrite HU; reflexivity.
Qed.

Lemma rtdbBind_null (key : string) (source : Source)
    (userOptions : option (gmap string value)) (w : World) :
  _firebaseUnbinds (vm w) = None ->
  rtdbBind E pluginOptions key source userOptions w = (w, Throws TypeError).
Proof.
  intros HU. unfold rtdbBind, mbind, M_bind, read_unbind. rewrite HU. reflexivity.
Qed.

Lemma rtdbBind_fresh (key : string) (source : Source)
    (userOptions : option (gmap string value)) (w : World)
    (refs : gmap string Ref) (sources : gmap string Source)
    (unbinds : Ordered.obj Handle) :
  firebaseRefs (vm w) = Some refs ->
  _firebaseSources (vm w) = Some sources ->
  _firebaseUnbinds (vm w) = Some unbinds ->
  Ordered.get unbinds key = None ->
  rtdbBind E pluginOptions key source userOptions w =
    let options := callOptions E pluginOptions userOptions in
    let '(res, p, ev) := engine_run E key source options (props (vm w)) in
    ({| vm := {| props := p;
                 firebaseRefs := Some (<[key := getRef source]> refs);
                 _firebaseSources := Some (<[key := source]> sources);
                 _firebaseUnbinds := Some (stored_in unbinds key res) |};
        trace := trace w ++ [ev] |}, Returns (promise_of res)).
Proof.
  intros HR HS HU Hk.
  unfold rtdbBind, mbind, M_bind, read_unbind. rewrite HU, Hk. simpl.
  unfold mret, M_ret. rewrite (bind_run _ _ _ _ _ HU).
  destruct (engine_run E key source (callOptions E pluginOptions userOptions)
              (props (vm w))) as [[res p] ev].
  unfold set_source, set_ref. simpl. rewrite HS. simpl. rewrite HR. reflexivity.
Qed.

Lemma rtdbBind_rebind_throws (key : string) (source : Source)
    (userOptions : option (gmap string value)) (w : World)
    (h : Handle) (p1 : gmap string value) (v : value) :
  bound_handle w key = Some h ->
  unsubscribe E h (rebind_argument (callOptions E pluginOptions userOptions))
    (props (vm w)) = (p1, Some v) ->
  rtdbBind E pluginOptions key source userOptions w =
    ({| vm := {| props := p1;
                 firebaseRefs := firebaseRefs (vm w);
                 _firebaseSources := _firebaseSources (vm w);
                 _firebaseUnbinds := _firebaseUnbinds (vm w) |};
        trace := trace w ++
          [EvUnsubscribe h (rebind_argument (callOptions E pluginOptions userOptions))] |},
     Throws (Raised v)).
Proof.
  intros Hb Hrun.
  unfold rtdbBind, mbind at 1, M_bind at 1, read_unbind.
  unfold bound_handle in Hb.
  destruct (_firebaseUnbinds (vm w)) as [unbinds|] eqn:HU; simpl in Hb; [|discriminate].
  rewrite Hb. unfold mbind at 1, M_bind at 1. unfold rtdbUnbind.
  fold (rebind_argument (callOptions E pluginOptions userOptions)).
  rewrite (unbind_handle_throws E key _ w h p1 v).
  - rewrite HU. reflexivity.
  - unfold bound_handle. rewrite HU. exact Hb.
  - exact Hrun.
Qed.

Lemma rtdbBind_rebind_returns (key : string) (source : Source)
    (userOptions : option (gmap string value)) (w : World)
    (refs : gmap string Ref) (sources : gmap string Source)
    (unbinds : Ordered.obj Handle) (h : Handle) (p1 : gmap string value) :
  firebaseRefs (vm w) = Some refs ->
  _firebaseSources (vm w) = Some sources ->
  _firebaseUnbinds (vm w) = Some unbinds ->
  Ordered.get unbinds key = Some h ->
  unsubscribe E h (rebind_argument (callOptions E pluginOptions userOptions))
    (props (vm w)) = (p1, None) ->
  rtdbBind E pluginOptions key source userOptions w =
    let options := callOptions E pluginOptions userOptions in
    let '(res, p, ev) := engine_run E key source options p1 in
    ({| vm := {| props := p;
                 firebaseRefs := Some (<[key := getRef source]> refs);
                 _firebaseSources := Some (<[key := source]> (delete key sources));
                 _firebaseUnbinds :=
                   Some (stored_in (Ordered.delete unbinds key) key res) |};
        trace := trace w ++ [EvUnsubscribe h (rebind_argument options); ev] |},
     Returns (promise_of res)).
Proof.
  intros HR HS HU Hk Hrun.
  unfold rtdbBind, mbind at 1, M_bind at 1, read_unbind.
  rewrite HU, Hk. unfold mbind at 1, M_bind at 1. unfold rtdbUnbind.
  fold (rebind_argument (callOptions E pluginOptions userOptions)).
  rewrite (unbind_handle_returns E key _ w h p1 unbinds sources HU HS Hk Hrun).
  unfold mbind, M_bind, mret, M_ret.
  erewrite bind_run by reflexivity. simpl.
  destruct (engine_run E key source (callOptions E pluginOptions userOptions) p1)
    as [[res p] ev].
  unfold set_source, set_ref. simpl. rewrite HR. simpl.
  rewrite <- app_assoc. reflexivity.
Qed.

End RebindFacts.

Section RebindClaims.

Variable E : Engines.
Variable pluginOptions : option (gmap string value).

Lemma drop_trace_1 (tr : list event) (e : event) :
  drop (length tr) (tr ++ [e]) = [e].
Proof. apply drop_app_length. Qed.

Lemma drop_trace_2 (tr : list event) (e1 e2 : event) :
  drop (length tr) ((tr ++ [e1]) ++ [e2]) = [e1; e2].
Proof. rewrite <- app_assoc. apply drop_app_length. Qed.

Lemma drop_trace_0 (tr : list event) : drop (length tr) tr = [].
Proof. apply drop_all. Qed.

Ltac run_rtdbBind w :=
  unfold rtdbBind, rtdbUnbind, unbind, bind, mbind, M_bind, mret, M_ret,
    read_unbind, call_handle, delete_source, delete_unbind, set_source,
    set_ref, news, bound_handle, engine_run, live;
  destruct w as [[p refs sources unbinds] tr]; simpl.

Ltac split_engines :=
  repeat match goal with
  | |- context [isArray ?v] => destruct (isArray v) eqn:?
  | |- context [bindAsArray ?e ?k ?s ?o ?p] =>
      destruct (bindAsArray e k s o p) as [[?|?] ?] eqn:?
  | |- context [bindAsObject ?e ?k ?s ?o ?p] =>
      destruct (bindAsObject e k s o p) as [[?|?] ?] eqn:?
  end.

Ltac use_engines :=
  repeat match goal with
  | H : isArray _ = _ |- _ => rewrite H
  | H : bindAsArray _ _ _ _ _ = _ |- _ => rewrite H
  | H : bindAsObject _ _ _ _ _ = _ |- _ => rewrite H
  end.

(** The events of one call of [rtdbBind], in every state of the registry. *)
Lemma rtdbBind_events
    (key : string) (source : Source)
    (userOptions : option (gmap string value)) (w : World) :
  let options := callOptions E pluginOptions userOptions in
  let w' := fst (rtdbBind E pluginOptions key source userOptions w) in
  trace w' = trace w ++ news w w' /\
  match bound_handle w key with
  | Some h =>
      let arg := rebind_argument options in
      exists rest,
        news w w' = EvUnsubscribe h arg :: rest
        /\ teardowns rest = []
        /\ match unsubscribe E h arg (props (vm w)) with
           | (p1, None) =>
               live w -> rest = [(engine_run E key source options p1).2]
           | (_, Some _) => rest = []
           end
  | None =>
      teardowns (news w w') = []
      /\ (live w -> news w w' = [(engine_run E key source options (props (vm w))).2])
  end.
Proof.
  unfold rebind_argument. run_rtdbBind w.
  destruct unbinds as [unbinds|]; simpl.
  2:{ rewrite drop_trace_0, app_nil_r. repeat split; auto.
      intros (_ & _ & [? ?]); discriminate. }
  destruct (Ordered.get unbinds key) as [h|] eqn:Hk; simpl.
  - set (arg := if truthy _ then _ else _).
    destruct (unsubscribe E h arg p) as [p1 [v|]] eqn:Hrun; simpl;
      rewrite ?Hk, ?Hrun; simpl.
    + rewrite drop_trace_1. split; [reflexivity|].
      exists []. auto.
    + destruct sources as [sources|]; simpl.
      * split_engines; simpl; destruct refs as [refs|]; simpl;
          rewrite drop_trace_2; (split; [rewrite <- app_assoc; reflexivity|]);
          eexists [_]; repeat split; auto.
      * rewrite drop_trace_1. split; [reflexivity|].
        exists []. repeat split; auto.
        intros (_ & [? ?] & _); discriminate.
  - split_engines; simpl; destruct sources as [sources|]; simpl;
      try destruct refs as [refs|]; simpl; rewrite drop_trace_1;
      repeat split; auto.
Qed.

(** C1. When [rtdbBind] is called on a key that is bound, the first thing
    it does is call the handle stored for the key, and the reset argument
    of that call follows the rebind table: the [reset] option itself when
    the [wait] option is falsy; the [reset] option when [wait] is truthy and
    [reset] is a function; [false] when [wait] is truthy and [reset] is not
    a function. The options are the effective ones of the call. *)
Theorem rebind_reset_argument_table
    (key : string) (source : Source)
    (userOptions : option (gmap string value)) (w : World) (h : Handle) :
  bound_handle w key = Some h ->
  let options := callOptions E pluginOptions userOptions in
  let w' := fst (rtdbBind E pluginOptions key source userOptions w) in
  exists arg rest,
    news w w' = EvUnsubscribe h arg :: rest
    /\ teardowns rest = []
    /\ (truthy (prop options "wait") = false -> arg = prop options "reset")
    /\ (truthy (prop options "wait") = true ->
        typeof_function (prop options "reset") = true ->
        arg = prop options "reset")
    /\ (truthy (prop options "wait") = true ->
        typeof_function (prop options "reset") = false ->
        arg = VBool false).
Proof.
  intros Hb options w'.
  destruct (rtdbBind_events key source userOptions w) as [_ H].
  rewrite Hb in H. destruct H as (rest & Hnews & Hrest & _).
  exists (rebind_argument options), rest.
  split; [exact Hnews|]. split; [exact Hrest|].
  unfold rebind_argument.
  repeat split; intros Hw; rewrite Hw; auto; intros Hf; rewrite Hf; reflexivity.
Qed.

(** C4. On a live instance, a call of [rtdbBind] on a key that is bound
    calls the prior handle once, before anything else; the engine of the new
    binding is invoked after that call has returned, on the properties the
    handle left, and is not invoked at all when the handle throws. On a key
    that is not bound the engine is the only thing invoked: there is no
    teardown. *)
Theorem rebind_teardown_once_before_engine
    (key : string) (source : Source)
    (userOptions : option (gmap string value)) (w : World) :
  live w ->
  let options := callOptions E pluginOptions userOptions in
  let w' := fst (rtdbBind E pluginOptions key source userOptions w) in
  trace w' = trace w ++ news w w' /\
  match bound_handle w key with
  | Some h =>
      let arg := rebind_argument options in
      teardowns (news w w') = [(h, arg)] /\
      match unsubscribe E h arg (props (vm w)) with
      | (p1, None) =>
          news w w' =
            [EvUnsubscribe h arg; (engine_run E key source options p1).2]
      | (_, Some _) => news w w' = [EvUnsubscribe h arg]
      end
  | None =>
      teardowns (news w w') = []
      /\ news w w' = [(engine_run E key source options (props (vm w))).2]
  end.
Proof.
  intros Hlive options w'.
  destruct (rtdbBind_events key source userOptions w) as [Htr H].
  split; [exact Htr|].
  destruct (bound_handle w key) as [h|].
  - destruct H as (rest & Hnews & Hrest & Hcase).
    fold options w' in Hnews, Hcase. cbv zeta. rewrite Hnews. simpl. rewrite Hrest.
    split; [reflexivity|].
    destruct (unsubscribe E h (rebind_argument options) (props (vm w)))
      as [p1 [v|]].
    + rewrite Hcase. reflexivity.
    + rewrite (Hcase Hlive). reflexivity.
  - destruct H as [Hno Hone]. split; [exact Hno | exact (Hone Hlive)].
Qed.

End RebindClaims.

(** ** Destruction *)

Section DestroyFacts.

Variable E : Engines.

Lemma teardown_step (key : string) (w : World) (unbinds : Ordered.obj Handle)
    (h : Handle) :
  _firebaseUnbinds (vm w) = Some unbinds ->
  Ordered.get unbinds key = Some h ->
  teardown E key w =
    ({| vm := {| props := (unsubscribe E h VUndefined (props (vm w))).1;
                 firebaseRefs := firebaseRefs (vm w);
                 _firebaseSources := _firebaseSources (vm w);
                 _firebaseUnbinds := _firebaseUnbinds (vm w) |};
        trace := trace w ++ [EvUnsubscribe h VUndefined] |},
     match (unsubscribe E h VUndefined (props (vm w))).2 with
     | Some v => Throws (Raised v)
     | None => Returns tt
     end).
Proof.
  intros HU Hk. unfold teardown, mbind, M_bind, read_unbind, call_handle.
  rewrite HU, Hk.
  destruct (unsubscribe E h VUndefined (props (vm w))) as [p' [v|]];
    simpl; rewrite ?HU; reflexivity.
Qed.

Lemma teardown_unbound (key : string) (w : World) (unbinds : Ordered.obj Handle) :
  _firebaseUnbinds (vm w) = Some unbinds ->
  Ordered.get unbinds key = None ->
  teardown E key w = (w, Throws TypeError).
Proof.
  intros HU Hk. unfold teardown, mbind, M_bind, read_unbind, call_handle.
  rewrite HU, Hk. reflexivity.
Qed.


Lemma for_each_cons {A : Type} (x : A) (xs : list A) (body : A -> M unit)
    (w : World) :
  for_each (x :: xs) body w =
    match body x w with
    | (w', Returns _) => for_each xs body w'
    | (w', Throws e) => (w', Throws e)
    end.
Proof. reflexivity. Qed.

(** The loop never touches the three mappings; when it runs to its end it
    has called the handle of every key, in order. *)
Lemma teardown_loop (unbinds : Ordered.obj Handle) (keys : list string) :
  forall w : World,
  _firebaseUnbinds (vm w) = Some unbinds ->
  let res := for_each keys (teardown E) w in
  firebaseRefs (vm res.1) = firebaseRefs (vm w)
  /\ _firebaseSources (vm res.1) = _firebaseSources (vm w)
  /\ _firebaseUnbinds (vm res.1) = Some unbinds
  /\ (exists called, called `prefix_of` keys
      /\ trace res.1 = trace w ++
           map (fun h => EvUnsubscribe h VUndefined) (handles_in_order unbinds called)
      /\ (res.2 = Returns tt -> called = keys)).
Proof.
  induction keys as [|key keys IH]; intros w HU; cbv zeta.
  - simpl. repeat split; auto. exists []. simpl. rewrite app_nil_r. auto.
  - rewrite for_each_cons.
    destruct (Ordered.get unbinds key) as [h|] eqn:Hk.
    + rewrite (teardown_step key w unbinds h HU Hk).
      destruct (unsubscribe E h VUndefined (props (vm w))) as [p' [v|]]; simpl.
      * repeat split; auto. exists [key]. split; [|split].
        -- exists keys. reflexivity.
        -- unfold handles_in_order. simpl. rewrite Hk. reflexivity.
        -- discriminate.
      * match goal with |- context [for_each keys (teardown E) ?w1] =>
          destruct (IH w1 HU) as (HR & HS & HU' & called & Hpre & Htr & Hall)
        end.
        simpl in *. repeat split; auto.
        exists (key :: called). split; [|split].
        -- apply prefix_cons. exact Hpre.
        -- rewrite Htr. unfold handles_in_order. simpl. rewrite Hk. simpl.
           rewrite <- app_assoc. reflexivity.
        -- intros Hret. rewrite (Hall Hret). reflexivity.
    + rewrite (teardown_unbound key w unbinds HU Hk). simpl.
      repeat split; auto. exists []. split; [|split].
      * apply prefix_nil.
      * simpl. rewrite app_nil_r. reflexivity.
      * discriminate.
Qed.


Lemma teardown_loop_throws (unbinds : Ordered.obj Handle)
    (pre : list string) (key : string) (post : list string)
    (h : Handle) (v : value) :
  forall w : World,
  _firebaseUnbinds (vm w) = Some unbinds ->
  (forall k, k ∈ pre -> exists h',
     Ordered.get unbinds k = Some h' /\ returns E h' VUndefined) ->
  Ordered.get unbinds key = Some h ->
  throws E h VUndefined v ->
  let res := for_each (pre ++ key :: post) (teardown E) w in
  res.2 = Throws (Raised v)
  /\ trace res.1 = trace w ++
       map (fun h => EvUnsubscribe h VUndefined)
         (handles_in_order unbinds (pre ++ [key])).
Proof.
  induction pre as [|k0 pre IH]; intros w HU Hpre Hk Hthrow; cbv zeta.
  - simpl app. rewrite for_each_cons.
    rewrite (teardown_step key w unbinds h HU Hk), Hthrow. simpl.
    unfold handles_in_order. simpl. rewrite Hk. auto.
  - simpl app. rewrite for_each_cons.
    destruct (Hpre k0) as (h0 & Hk0 & Hret); [left|].
    rewrite (teardown_step k0 w unbinds h0 HU Hk0), Hret.
    match goal with |- context [for_each _ (teardown E) ?w1] =>
      destruct (IH w1 HU) as [Hr Htr]; auto
    end.
    { intros k Hin. apply Hpre. right. exact Hin. }
    split; [exact Hr|]. rewrite Htr. simpl.
    unfold handles_in_order. simpl. rewrite Hk0. simpl.
    rewrite <- app_assoc. reflexivity.
Qed.

Lemma beforeDestroy_unfold (w : World) :
  beforeDestroy E w =
    match for_each (from_option Ordered.own_keys [] (_firebaseUnbinds (vm w)))
            (teardown E) w with
    | (w1, Returns _) => discard w1
    | (w1, Throws e) => (w1, Throws e)
    end.
Proof.
  unfold beforeDestroy, mbind, M_bind, unbind_keys.
  destruct (for_each _ _ w) as [w1 [[]|e]]; reflexivity.
Qed.

Lemma news_app (w w' : World) (evs : list event) :
  trace w' = trace w ++ evs -> news w w' = evs.
Proof. intros H. unfold news. rewrite H. apply drop_app_length. Qed.



(** C6, as the code has it. When a handle throws during destruction, the
    failure reaches the caller of [beforeDestroy]; the handles of the keys
    enumerated before it have been called, the handles of the keys after it
    are not called, and the three mappings are left in place. *)
Theorem failing_handle_stops_destruction
    (w : World) (unbinds : Ordered.obj Handle)
    (pre : list string) (key : string) (post : list string)
    (h : Handle) (v : value) :
  _firebaseUnbinds (vm w) = Some unbinds ->
  Ordered.own_keys unbinds = pre ++ key :: post ->
  (forall k, k ∈ pre -> exists h',
     Ordered.get unbinds k = Some h' /\ returns E h' VUndefined) ->
  Ordered.get unbinds key = Some h ->
  throws E h VUndefined v ->
  let w' := (beforeDestroy E w).1 in
  (beforeDestroy E w).2 = Throws (Raised v)
  /\ news w w' =
       map (fun h => EvUnsubscribe h VUndefined)
         (handles_in_order unbinds (pre ++ [key]))
  /\ firebaseRefs (vm w') = firebaseRefs (vm w)
  /\ _firebaseSources (vm w') = _firebaseSources (vm w)
  /\ _firebaseUnbinds (vm w') = _firebaseUnbinds (vm w).
Proof.
  intros HU Hkeys Hpre Hk Hthrow w'. subst w'.
  assert (Hloop := teardown_loop unbinds (Ordered.own_keys unbinds) w HU).
  cbv zeta in Hloop. destruct Hloop as (HR & HS & HU' & _).
  assert (Hrun := teardown_loop_throws unbinds pre key post h v w HU Hpre Hk Hthrow).
  cbv zeta in Hrun. destruct Hrun as [Hr Htr].
  rewrite beforeDestroy_unfold, HU. simpl. rewrite Hkeys in *.
  destruct (for_each (pre ++ key :: post) (teardown E) w) as [w1 r]; simpl in *.
  subst r. simpl. repeat split; auto.
  apply news_app. exact Htr.
Qed.

End DestroyFacts.

(** ** Failure of a handle inside [unbind] *)

(** C10. When the handle stored for the key throws, [unbind] deletes
    nothing: the failure reaches the caller and the three mappings are as
    they were before the call, so the key still has its handle and its
    source. *)
Theorem unbind_failure_leaves_registry
    (E : Engines) (key : string) (reset : value) (w : World)
    (h : Handle) (v : value) :
  bound_handle w key = Some h ->
  (unsubscribe E h reset (props (vm w))).2 = Some v ->
  let w' := (unbind E key reset w).1 in
  (unbind E key reset w).2 = Throws (Raised v)
  /\ news w w' = [EvUnsubscribe h reset]
  /\ firebaseRefs (vm w') = firebaseRefs (vm w)
  /\ _firebaseSources (vm w') = _firebaseSources (vm w)
  /\ _firebaseUnbinds (vm w') = _firebaseUnbinds (vm w)
  /\ bound_handle w' key = Some h
  /\ source_of w' key = source_of w key.
Proof.
  intros Hb Hthrow. cbv zeta.
  destruct (unsubscribe E h reset (props (vm w))) as [p' r] eqn:Hrun.
  simpl in Hthrow. subst r.
  rewrite (unbind_handle_throws E key reset w h p' v Hb Hrun). simpl.
  repeat split; auto.
  unfold news. simpl. apply drop_app_length.
Qed.

Lemma unbind_failure_leaves_registry_witness :
  let E := Demo.brittle in
  let w := Demo.declared Demo.brittle in
  bound_handle w "items" = Some 1
  /\ (unsubscribe E 1 (VBool false) (props (vm w))).2 = Some (VStr "detach failed")
  /\ (unbind E "items" (VBool false) w).2 = Throws (Raised (VStr "detach failed"))
  /\ bound_handle (unbind E "items" (VBool false) w).1 "items" = Some 1
  /\ source_of (unbind E "items" (VBool false) w).1 "items"
     = Some (Query "i" "limitToLast(10)").
Proof.
  intros E w.
  assert (Hb : bound_handle w "items" = Some 1) by (vm_compute; reflexivity).
  assert (Ht : (unsubscribe E 1 (VBool false) (props (vm w))).2
               = Some (VStr "detach failed")) by (vm_compute; reflexivity).
  destruct (unbind_failure_leaves_registry E "items" (VBool false) w 1
              (VStr "detach failed") Hb Ht) as (Hr & _ & _ & _ & _ & Hh & Hs).
  split; [exact Hb|]. split; [exact Ht|]. split; [exact Hr|].
  split; [exact Hh|]. rewrite Hs. vm_compute. reflexivity.
Defined.

(** ** The canonical-reference mapping after [unbind] *)

(** C2, on [unbind('profile', 'offline')] after
    [rtdbBind('profile', db.ref('users/1'))]: the stored handle is called
    with ['offline'] and the key leaves the unsubscribe and the source
    mappings, but its entry in the canonical-reference mapping stays. *)
Theorem unbind_keeps_canonical_reference :
  let w := Demo.profile_bound Demo.sound in
  let w' := (rtdbUnbind Demo.sound "profile" (VStr "offline") w).1 in
  bound_handle w "profile" = Some 7
  /\ (rtdbUnbind Demo.sound "profile" (VStr "offline") w).2 = Returns tt
  /\ news w w' = [EvUnsubscribe 7 (VStr "offline")]
  /\ bound_handle w' "profile" = None
  /\ source_of w' "profile" = None
  /\ ref_of w' "profile" = Some "users/1".
Proof. vm_compute. repeat split; reflexivity. Qed.

(** C8, on the same two calls: at the boundary after [unbind] the
    unsubscribe and source mappings agree on every key, and the
    canonical-reference mapping has an entry for a key that is not bound. *)
Theorem canonical_reference_outlives_binding :
  let w := (rtdbUnbind Demo.sound "profile" (VStr "offline")
              (Demo.profile_bound Demo.sound)).1 in
  registry_in_step w /\ ~ refs_only_while_bound w.
Proof.
  split.
  - intros k. vm_compute. split; intros [? ?]; discriminate.
  - intros H. specialize (H "profile"). vm_compute in H.
    destruct H as [? ?]; [eauto | discriminate].
Qed.

(** ** A failing handle during destruction *)

(** C6, as stated, fails: with two bound keys of which the first has a
    handle that throws, [beforeDestroy] throws and the handle of the second
    key is never called. *)
Lemma remaining_teardowns_not_processed :
  ~ remaining_teardowns_processed Demo.brittle (Demo.declared Demo.brittle).
Proof.
  intros H.
  specialize (H (Raised (VStr "detach failed")) eq_refl "profile" 2 eq_refl).
  vm_compute in H. apply list_elem_of_In in H.
  destruct H as [H|[]]. discriminate.
Qed.

(** ** The theorems at work on the concrete setting *)

Lemma rebind_reset_argument_table_witness :
  let w := Demo.profile_bound Demo.sound in
  let user := Some (<["wait" := VBool true]> (<["reset" := VBool false]> ∅)) in
  bound_handle w "profile" = Some 7
  /\ exists arg rest,
       news w (rtdbBind Demo.sound None "profile" (Reference "users/2") user w).1
         = EvUnsubscribe 7 arg :: rest
       /\ arg = VBool false.
Proof.
  intros w user.
  assert (Hb : bound_handle w "profile" = Some 7) by (vm_compute; reflexivity).
  split; [exact Hb|].
  destruct (rebind_reset_argument_table Demo.sound None "profile"
              (Reference "users/2") user w 7 Hb)
    as (arg & rest & Hnews & _ & _ & _ & Hfalse).
  exists arg, rest. split; [exact Hnews|].
  apply Hfalse; vm_compute; reflexivity.
Defined.

Lemma rebind_teardown_once_before_engine_witness :
  let w := Demo.profile_bound Demo.sound in
  let user := Some (<["wait" := VBool true]> (<["reset" := VBool false]> ∅)) in
  let w' := (rtdbBind Demo.sound None "profile" (Reference "users/2") user w).1 in
  live w
  /\ teardowns (news w w') = [(7, VBool false)]
  /\ news w w' =
       [EvUnsubscribe 7 (VBool false);
        EvBindAsObject "profile" (Reference "users/2")
          (callOptions Demo.sound None user)].
Proof.
  intros w user w'.
  assert (Hlive : live w) by (vm_compute; repeat split; eauto).
  split; [exact Hlive|].
  destruct (rebind_teardown_once_before_engine Demo.sound None "profile"
              (Reference "users/2") user w Hlive) as [_ H].
  change (bound_handle w "profile") with (Some 7) in H.
  destruct H as [Hone Hnews]. split; [exact Hone | exact Hnews].
Defined.


Lemma failing_handle_stops_destruction_witness :
  let w := Demo.declared Demo.brittle in
  let unbinds := [("items", 1); ("profile", 2)] in
  let w' := (beforeDestroy Demo.brittle w).1 in
  _firebaseUnbinds (vm w) = Some unbinds
  /\ Ordered.own_keys unbinds = [] ++ "items" :: ["profile"]
  /\ Ordered.get unbinds "items" = Some 1
  /\ throws Demo.brittle 1 VUndefined (VStr "detach failed")
  /\ (beforeDestroy Demo.brittle w).2 = Throws (Raised (VStr "detach failed"))
  /\ news w w' = [EvUnsubscribe 1 VUndefined]
  /\ _firebaseUnbinds (vm w') = Some unbinds.
Proof.
  intros w unbinds w'.
  assert (HU : _firebaseUnbinds (vm w) = Some unbinds) by (vm_compute; reflexivity).
  assert (Hkeys : Ordered.own_keys unbinds = [] ++ "items" :: ["profile"])
    by (vm_compute; reflexivity).
  assert (Hpre : forall k, k ∈ @nil string -> exists h',
            Ordered.get unbinds k = Some h' /\ returns Demo.brittle h' VUndefined)
    by (intros k Hin; apply elem_of_nil in Hin; contradiction).
  assert (Hk : Ordered.get unbinds "items" = Some 1) by reflexivity.
  assert (Ht : throws Demo.brittle 1 VUndefined (VStr "detach failed"))
    by (intros p; reflexivity).
  destruct (failing_handle_stops_destruction Demo.brittle w unbinds
              [] "items" ["profile"] 1 (VStr "detach failed")
              HU Hkeys Hpre Hk Ht) as (Hr & Hnews & _ & _ & Hkept).
  split; [exact HU|]. split; [exact Hkeys|]. split; [exact Hk|].
  split; [exact Ht|]. split; [exact Hr|]. split; [exact Hnews|].
  fold w' in Hkept. rewrite Hkept. exact HU.
Defined.

(** ** The registry at the boundaries of the public operations *)

Section Boundaries.

Variable E : Engines.
Variable pluginOptions : option (gmap string value).

Lemma for_each_preserves {A : Type} (P : World -> Prop) (xs : list A)
    (body : A -> M unit) :
  (forall x w, x ∈ xs -> P w -> P (body x w).1) ->
  forall w, P w -> P (for_each xs body w).1.
Proof.
  induction xs as [|x xs IH]; intros Hbody w Hw; [exact Hw|].
  rewrite for_each_cons.
  assert (Hx : P (body x w).1) by (apply Hbody; [left | exact Hw]).
  destruct (body x w) as [w1 [[]|e]]; simpl in *; [|exact Hx].
  apply IH; [|exact Hx]. intros y w2 Hy. apply Hbody. right. exact Hy.
Qed.

Lemma live_registries (w : World) :
  live w ->
  exists refs sources unbinds,
    firebaseRefs (vm w) = Some refs
    /\ _firebaseSources (vm w) = Some sources
    /\ _firebaseUnbinds (vm w) = Some unbinds.
Proof. intros ([r Hr] & [s Hs] & [u Hu]). eauto 7. Qed.

Lemma get_stored_in_ne (unbinds : Ordered.obj Handle) (key k : string)
    (res : started) :
  key <> k ->
  Ordered.get (stored_in unbinds key res) k = Ordered.get unbinds k.
Proof.
  intros Hne. destruct res as [h|v]; simpl; [|reflexivity].
  apply get_set_ne. exact Hne.
Qed.

Lemma wf_stored_in (unbinds : Ordered.obj Handle) (key : string) (res : started) :
  Ordered.wf unbinds -> Ordered.wf (stored_in unbinds key res).
Proof. destruct res as [h|v]; simpl; [apply wf_set | auto]. Qed.

Ltac registry_facts :=
  unfold consistent, live, discarded, registry_in_step, bound_keys_have_refs,
    bound_keys_have_sources, sources_have_refs,
    bound_handle, source_of, ref_of in *; simpl in *.

Ltac by_key k key :=
  destruct (decide (key = k)) as [->|];
  [ rewrite ?get_set_eq, ?get_delete_eq, ?lookup_insert_eq, ?lookup_delete_eq
  | rewrite ?get_stored_in_ne, ?get_set_ne, ?get_delete_ne,
      ?lookup_insert_ne, ?lookup_delete_ne by assumption ].

Lemma beforeCreate_consistent (w : World) : consistent (beforeCreate w).1.
Proof.
  registry_facts. split; [left; eauto|].
  split; [|split]; [intros k | intros k | apply NoDup_nil_2];
    intros [? ?]; discriminate.
Qed.

Lemma unbind_consistent (key : string) (reset : value) (w : World) :
  consistent w -> consistent (unbind E key reset w).1.
Proof.
  intros Hw.
  destruct (bound_handle w key) as [h|] eqn:Hb.
  2:{ rewrite (unbind_unbound E key reset w Hb). exact Hw. }
  destruct (unsubscribe E h reset (props (vm w))) as [p' [v|]] eqn:Hrun.
  { rewrite (unbind_handle_throws E key reset w h p' v Hb Hrun).
    registry_facts. exact Hw. }
  destruct Hw as ([Hlive|(_ & _ & HU)] & Hstep & Hrefs & Hwf).
  2:{ unfold bound_handle in Hb. rewrite HU in Hb. discriminate. }
  destruct (live_registries w Hlive) as (refs & sources & unbinds & HR & HS & HU).
  assert (Hk : Ordered.get unbinds key = Some h)
    by (unfold bound_handle in Hb; rewrite HU in Hb; exact Hb).
  rewrite (unbind_handle_returns E key reset w h p' unbinds sources HU HS Hk Hrun).
  registry_facts. rewrite HR, HS, HU in *. simpl in *.
  split; [left; eauto|]. split; [|split]; [intros k | intros k |].
  - by_key k key.
    + intros [? ?]; discriminate.
    + apply Hstep.
  - by_key k key.
    + intros [? ?]; discriminate.
    + apply Hrefs.
  - apply wf_delete. exact Hwf.
Qed.

Lemma rtdbBind_consistent (key : string) (source : Source)
    (userOptions : option (gmap string value)) (w : World) :
  consistent w ->
  consistent (rtdbBind E pluginOptions key source userOptions w).1.
Proof.
  intros Hw.
  destruct Hw as ([Hlive|Hgone] & Hstep & Hrefs & Hwf).
  2:{ destruct Hgone as (HR & HS & HU).
      rewrite (rtdbBind_null E pluginOptions key source userOptions w HU).
      split; [right; repeat split; assumption|].
      exact (conj Hstep (conj Hrefs Hwf)). }
  destruct (live_registries w Hlive) as (refs & sources & unbinds & HR & HS & HU).
  destruct (Ordered.get unbinds key) as [h|] eqn:Hk.
  - destruct (unsubscribe E h
                (rebind_argument (callOptions E pluginOptions userOptions))
                (props (vm w))) as [p1 [v|]] eqn:Hrun.
    + rewrite (rtdbBind_rebind_throws E pluginOptions key source userOptions
                 w h p1 v); [| unfold bound_handle; rewrite HU; exact Hk | exact Hrun].
      registry_facts. split; [left; exact Hlive|].
      exact (conj Hstep (conj Hrefs Hwf)).
    + rewrite (rtdbBind_rebind_returns E pluginOptions key source userOptions
                 w refs sources unbinds h p1 HR HS HU Hk Hrun).
      cbv zeta.
      destruct (engine_run E key source (callOptions E pluginOptions userOptions) p1)
        as [[res p] ev].
      registry_facts. rewrite HR, HS, HU in *. simpl in *.
      split; [left; eauto|]. split; [|split]; [intros k | intros k |].
      * by_key k key; [eauto | apply Hstep].
      * by_key k key; [eauto | apply Hrefs].
      * apply wf_stored_in, wf_delete. exact Hwf.
  - rewrite (rtdbBind_fresh E pluginOptions key source userOptions
               w refs sources unbinds HR HS HU Hk).
    cbv zeta.
    destruct (engine_run E key source (callOptions E pluginOptions userOptions)
                (props (vm w))) as [[res p] ev].
    registry_facts. rewrite HR, HS, HU in *. simpl in *.
    split; [left; eauto|]. split; [|split]; [intros k | intros k |].
    + by_key k key; [eauto | apply Hstep].
    + by_key k key; [eauto | apply Hrefs].
    + apply wf_stored_in. exact Hwf.
Qed.

Lemma created_consistent (firebase : option FirebaseOption) (w : World) :
  consistent w -> consistent (created E pluginOptions firebase w).1.
Proof.
  intros Hw. unfold created.
  destruct (match firebase with
            | Some (Bindings b) => Some b
            | Some (Producer f) => f (vm w)
            | None => None
            end) as [b|]; [|exact Hw].
  apply for_each_preserves; [|exact Hw].
  intros key w1 _ Hw1.
  destruct (Ordered.get b key) as [source|]; [|exact Hw1].
  unfold mbind, M_bind.
  assert (H := rtdbBind_consistent key source (Some (globalOptions E pluginOptions))
                 w1 Hw1).
  destruct (rtdbBind E pluginOptions key source
              (Some (globalOptions E pluginOptions)) w1) as [w2 [pr|e]]; exact H.
Qed.

Lemma beforeDestroy_consistent (w : World) :
  consistent w -> consistent (beforeDestroy E w).1.
Proof.
  intros Hw. rewrite beforeDestroy_unfold.
  destruct (_firebaseUnbinds (vm w)) as [unbinds|] eqn:HU; simpl.
  - destruct (teardown_loop E unbinds (Ordered.own_keys unbinds) w HU)
      as (HR & HS & HU' & _).
    destruct (for_each (Ordered.own_keys unbinds) (teardown E) w) as [w1 [[]|e]];
      simpl in *.
    + registry_facts. split; [right; auto|].
      split; [|split]; [intros k | intros k | exact I];
        intros [? ?]; discriminate.
    + registry_facts. rewrite HR, HS, HU', <- HU. exact Hw.
  - registry_facts. split; [right; auto|].
    split; [|split]; [intros k | intros k | exact I];
      intros [? ?]; discriminate.
Qed.

Lemma perform_consistent (c : call) (w : World) :
  consistent w -> consistent (perform E pluginOptions c w).1.
Proof.
  intros Hw. destruct c as [|firebase|key source userOptions|key reset|]; simpl.
  - apply beforeCreate_consistent.
  - apply created_consistent. exact Hw.
  - unfold mbind, M_bind.
    assert (H := rtdbBind_consistent key source userOptions w Hw).
    destruct (rtdbBind E pluginOptions key source userOptions w) as [w1 [pr|e]];
      exact H.
  - apply unbind_consistent. exact Hw.
  - apply beforeDestroy_consistent. exact Hw.
Qed.

(** X1. After [beforeCreate] and any history of calls, whether they
    returned or threw and whether the engines returned or threw, the three
    mappings exist together or not at all, every key with an unsubscribe
    handle has a source, every key with a source has its canonical
    reference, and no key is twice in the unsubscribe mapping. (A key can
    have a source and no handle: the key of an engine that threw.) *)
Lemma registry_consistent_at_boundaries (cs : list call) (w : World) :
  consistent (run E pluginOptions cs (beforeCreate w).1).
Proof.
  generalize (beforeCreate_consistent w). generalize (beforeCreate w).1.
  induction cs as [|c cs IH]; intros w1 Hw1; simpl; [exact Hw1|].
  apply IH. apply perform_consistent. exact Hw1.
Qed.

(** *** Keys that no call binds *)

Lemma unbind_leaves_unbound (key k : string) (reset : value) (w : World) :
  bound_handle w k = None -> bound_handle (unbind E key reset w).1 k = None.
Proof.
  intros Hk0.
  destruct (bound_handle w key) as [h|] eqn:Hb.
  2:{ rewrite (unbind_unbound E key reset w Hb). exact Hk0. }
  destruct (unsubscribe E h reset (props (vm w))) as [p' [v|]] eqn:Hrun.
  { rewrite (unbind_handle_throws E key reset w h p' v Hb Hrun). exact Hk0. }
  unfold unbind, mbind, M_bind, read_unbind, call_handle, delete_source,
    delete_unbind, bound_handle in *.
  destruct (_firebaseUnbinds (vm w)) as [unbinds|] eqn:HU; simpl in *; [|discriminate].
  rewrite Hb, Hrun. simpl.
  destruct (_firebaseSources (vm w)); simpl; rewrite ?HU; simpl; [|exact Hk0].
  destruct (decide (key = k)) as [->|Hne].
  - apply get_delete_eq.
  - rewrite get_delete_ne by exact Hne. exact Hk0.
Qed.

Lemma rtdbBind_leaves_unbound (key k : string) (source : Source)
    (userOptions : option (gmap string value)) (w : World) :
  key <> k ->
  consistent w ->
  bound_handle w k = None ->
  bound_handle (rtdbBind E pluginOptions key source userOptions w).1 k = None.
Proof.
  intros Hne Hw Hk0.
  destruct Hw as ([Hlive|Hgone] & _).
  2:{ destruct Hgone as (_ & _ & HU).
      rewrite (rtdbBind_null E pluginOptions key source userOptions w HU).
      exact Hk0. }
  destruct (live_registries w Hlive) as (refs & sources & unbinds & HR & HS & HU).
  destruct (Ordered.get unbinds key) as [h|] eqn:Hk.
  - destruct (unsubscribe E h
                (rebind_argument (callOptions E pluginOptions userOptions))
                (props (vm w))) as [p1 [v|]] eqn:Hrun.
    + rewrite (rtdbBind_rebind_throws E pluginOptions key source userOptions
                 w h p1 v); [| unfold bound_handle; rewrite HU; exact Hk | exact Hrun].
      exact Hk0.
    + rewrite (rtdbBind_rebind_returns E pluginOptions key source userOptions
                 w refs sources unbinds h p1 HR HS HU Hk Hrun).
      cbv zeta.
      destruct (engine_run E key source (callOptions E pluginOptions userOptions) p1)
        as [[h' p] ev].
      unfold bound_handle in *. rewrite HU in Hk0. simpl in *.
      rewrite get_stored_in_ne, get_delete_ne by exact Hne. exact Hk0.
  - rewrite (rtdbBind_fresh E pluginOptions key source userOptions
               w refs sources unbinds HR HS HU Hk).
    cbv zeta.
    destruct (engine_run E key source (callOptions E pluginOptions userOptions)
                (props (vm w))) as [[h' p] ev].
    unfold bound_handle in *. rewrite HU in Hk0. simpl in *.
    rewrite get_stored_in_ne by exact Hne. exact Hk0.
Qed.

Lemma created_leaves_unbound (k : string) (firebase : option FirebaseOption)
    (w : World) :
  leaves_unbound k (CallCreated firebase) ->
  consistent w ->
  bound_handle w k = None ->
  bound_handle (created E pluginOptions firebase w).1 k = None.
Proof.
  intros Hc Hw Hk0. unfold created.
  assert (Hb : forall b,
            match firebase with
            | Some (Bindings b) => Some b
            | Some (Producer f) => f (vm w)
            | None => None
            end = Some b -> Ordered.get b k = None).
  { intros b Hb. destruct firebase as [[b'|f]|]; simpl in Hc.
    - congruence.
    - specialize (Hc (vm w)). rewrite Hb in Hc. exact Hc.
    - discriminate. }
  destruct (match firebase with
            | Some (Bindings b) => Some b
            | Some (Producer f) => f (vm w)
            | None => None
            end) as [b|]; [|exact Hk0].
  specialize (Hb b eq_refl).
  apply (for_each_preserves
           (fun w => consistent w /\ bound_handle w k = None)); [|split; assumption].
  intros key w1 Hin [Hw1 Hk1].
  destruct (Ordered.get b key) as [source|] eqn:Hkey; [|split; assumption].
  assert (Hne : key <> k) by congruence.
  unfold mbind, M_bind.
  assert (H1 := rtdbBind_consistent key source (Some (globalOptions E pluginOptions))
                  w1 Hw1).
  assert (H2 := rtdbBind_leaves_unbound key k source
                  (Some (globalOptions E pluginOptions)) w1 Hne Hw1 Hk1).
  destruct (rtdbBind E pluginOptions key source
              (Some (globalOptions E pluginOptions)) w1) as [w2 [pr|e]];
    split; assumption.
Qed.

Lemma beforeDestroy_leaves_unbound (k : string) (w : World) :
  bound_handle w k = None -> bound_handle (beforeDestroy E w).1 k = None.
Proof.
  intros Hk0. rewrite beforeDestroy_unfold.
  destruct (_firebaseUnbinds (vm w)) as [unbinds|] eqn:HU; simpl.
  - destruct (teardown_loop E unbinds (Ordered.own_keys unbinds) w HU)
      as (_ & _ & HU' & _).
    destruct (for_each (Ordered.own_keys unbinds) (teardown E) w) as [w1 [[]|e]];
      simpl in *; [reflexivity|].
    unfold bound_handle in *. rewrite HU'. rewrite HU in Hk0. exact Hk0.
  - reflexivity.
Qed.

Lemma perform_leaves_unbound (k : string) (c : call) (w : World) :
  leaves_unbound k c ->
  consistent w ->
  bound_handle w k = None ->
  bound_handle (perform E pluginOptions c w).1 k = None.
Proof.
  intros Hc Hw Hk0.
  destruct c as [|firebase|key source userOptions|key reset|]; simpl.
  - reflexivity.
  - apply created_leaves_unbound; assumption.
  - unfold mbind, M_bind.
    assert (H := rtdbBind_leaves_unbound key k source userOptions w Hc Hw Hk0).
    destruct (rtdbBind E pluginOptions key source userOptions w) as [w1 [pr|e]];
      exact H.
  - apply unbind_leaves_unbound. exact Hk0.
  - apply beforeDestroy_leaves_unbound. exact Hk0.
Qed.

Lemma never_bound_is_unbound (k : string) (cs : list call) :
  Forall (leaves_unbound k) cs ->
  forall w, consistent w -> bound_handle w k = None ->
  bound_handle (run E pluginOptions cs w) k = None.
Proof.
  induction 1 as [|c cs Hc _ IH]; intros w Hw Hk0; simpl; [exact Hk0|].
  apply IH.
  - apply perform_consistent. exact Hw.
  - apply perform_leaves_unbound; assumption.
Qed.

(** C7. On an instance on which a key has never been bound (through
    [rtdbBind] or through the [firebase] option at creation) [unbind] of
    that key does not return: reading the handle gives [undefined], calling
    it is a TypeError that reaches the caller, and nothing has happened to
    the instance or been asked of an engine. *)
Theorem unbind_of_never_bound_key_throws
    (key : string) (reset : value) (cs : list call) (w0 : World) :
  Forall (leaves_unbound key) cs ->
  let w := run E pluginOptions cs (beforeCreate w0).1 in
  bound_handle w key = None
  /\ unbind E key reset w = (w, Throws TypeError)
  /\ rtdbUnbind E key reset w = (w, Throws TypeError).
Proof.
  intros Hcs w.
  assert (Hk : bound_handle w key = None).
  { apply never_bound_is_unbound;
      [exact Hcs | apply beforeCreate_consistent | reflexivity]. }
  split; [exact Hk|].
  split; apply unbind_unbound; exact Hk.
Qed.

End Boundaries.

Lemma unbind_of_never_bound_key_throws_witness :
  let cs := [CallBind "profile" (Reference "users/1") None;
             CallUnbind "profile" VUndefined;
             CallCreated (Some (Bindings [("profile", Reference "me")]))] in
  let w := run Demo.sound None cs (beforeCreate Demo.component).1 in
  Forall (leaves_unbound "items") cs
  /\ rtdbUnbind Demo.sound "items" VUndefined w = (w, Throws TypeError).
Proof.
  intros cs w.
  assert (Hcs : Forall (leaves_unbound "items") cs).
  { repeat constructor; simpl; discriminate. }
  split; [exact Hcs|].
  exact (proj2 (proj2 (unbind_of_never_bound_key_throws Demo.sound None
                         "items" VUndefined cs Demo.component Hcs))).
Defined.

(** ** The definitions at work *)

(** Array indices come first in [for ... in], in numeric order; a key with
    a leading zero or beyond 2^32 - 2 is an ordinary name. *)
Example for_in_order :
  Ordered.own_keys
    [("b", 1); ("10", 2); ("2", 3); ("a", 4); ("01", 5); ("4294967295", 6); ("0", 7)]
  = ["0"; "2"; "10"; "b"; "a"; "01"; "4294967295"].
Proof. reflexivity. Qed.

(** A component with [items = []] and [profile = {}] and the [firebase]
    option [{ items: query, profile: ref }]: creation invokes the collection
    engine for [items] and the single-value engine for [profile], each with
    the plugin-wide options, and fills the three mappings. *)
Example created_binds_declared_sources :
  let w := Demo.declared Demo.sound in
  trace w =
    [EvBindAsArray "items" (Query "i" "limitToLast(10)")
       (callOptions Demo.sound None (Some (globalOptions Demo.sound None)));
     EvBindAsObject "profile" (Reference "me")
       (callOptions Demo.sound None (Some (globalOptions Demo.sound None)))]
  /\ _firebaseUnbinds (vm w) = Some [("items", 1); ("profile", 2)]
  /\ source_of w "items" = Some (Query "i" "limitToLast(10)")
  /\ ref_of w "items" = Some "i"
  /\ source_of w "profile" = Some (Reference "me")
  /\ ref_of w "profile" = Some "me".
Proof. vm_compute. repeat split; reflexivity. Qed.

(** [bind('profile', refB2, { wait: true, reset: false })] on a bound
    [profile]: the prior handle is called with [false], and the entry for
    the new source is there when the call returns. *)
Example rebind_with_wait :
  let w := Demo.profile_bound Demo.sound in
  let user := Some (<["wait" := VBool true]> (<["reset" := VBool false]> ∅)) in
  let r := rtdbBind Demo.sound None "profile" (Reference "users/22") user w in
  r.2 = Returns Pending
  /\ teardowns (news w r.1) = [(7, VBool false)]
  /\ bound_handle r.1 "profile" = Some 8
  /\ source_of r.1 "profile" = Some (Reference "users/22")
  /\ ref_of r.1 "profile" = Some "users/22".
Proof. vm_compute. repeat split; reflexivity. Qed.

(** Without [wait] the prior handle gets the [reset] option as it is, here
    the default [true]. *)
Example rebind_without_wait :
  let w := Demo.profile_bound Demo.sound in
  let r := rtdbBind Demo.sound None "profile" (Reference "users/22") None w in
  teardowns (news w r.1) = [(7, VBool true)].
Proof. vm_compute. reflexivity. Qed.

(** A rebind deletes the key and writes it again: it moves to the end of
    the enumeration. *)
Example rebind_moves_key_last :
  let w := Demo.declared Demo.sound in
  let r := rtdbBind Demo.sound None "items" (Query "it" "limitToLast(5)") None w in
  from_option Ordered.own_keys [] (_firebaseUnbinds (vm r.1)) = ["profile"; "items"].
Proof. vm_compute. reflexivity. Qed.

(** After [beforeDestroy] the public methods throw: the registry is [null]. *)
Example bind_after_destruction :
  let w := (beforeDestroy Demo.sound (Demo.declared Demo.sound)).1 in
  rtdbBind Demo.sound None "items" (Reference "i") None w = (w, Throws TypeError).
Proof. vm_compute. reflexivity. Qed.

(** * Further properties of the code *)

(** ** The mutation operations *)

Section MutationOps.

Implicit Types (array : list value) (index : Z) (data : value).

Lemma splice_in_range {A : Type} (l : list A) (start deleteCount : Z)
    (items : list A) :
  (0 <= start <= Z.of_nat (length l))%Z ->
  (0 <= deleteCount)%Z ->
  splice l start deleteCount items =
    let s := Z.to_nat start in
    let d := Z.to_nat deleteCount `min` (length l - s) in
    (take s l ++ items ++ drop (s + d) l, take d (drop s l)).
Proof.
  intros Hs Hd. unfold splice.
  assert (Hneg : (start <? 0)%Z = false) by (apply Z.ltb_ge; lia).
  rewrite Hneg. cbv zeta.
  replace (Z.to_nat (Z.min start (Z.of_nat (length l)))) with (Z.to_nat start)
    by lia.
  replace (Z.to_nat (Z.min (Z.max deleteCount 0)
             (Z.of_nat (length l) - Z.min start (Z.of_nat (length l)))))
    with (Z.to_nat deleteCount `min` (length l - Z.to_nat start)) by lia.
  reflexivity.
Qed.

Lemma add_in_range array index data :
  (0 <= index <= Z.of_nat (length array))%Z ->
  ops.add array index data =
    (take (Z.to_nat index) array ++ data :: drop (Z.to_nat index) array, []).
Proof.
  intros Hi. unfold ops.add. rewrite splice_in_range by lia. cbv zeta.
  change (Z.to_nat 0) with 0. rewrite Nat.min_0_l, Nat.add_0_r. reflexivity.
Qed.

Lemma remove_in_range array index :
  (0 <= index < Z.of_nat (length array))%Z ->
  ops.remove array index =
    (take (Z.to_nat index) array ++ drop (S (Z.to_nat index)) array,
     take 1 (drop (Z.to_nat index) array)).
Proof.
  intros Hi. unfold ops.remove. rewrite splice_in_range by lia. cbv zeta.
  replace (Z.to_nat 1 `min` (length array - Z.to_nat index)) with 1 by lia.
  rewrite Nat.add_1_r. reflexivity.
Qed.

(** X9. An element added at an index within the array (the end included)
    is the one [ops.remove] takes out at that index: the array is back as
    it was and the call returns that element. *)
Theorem ops_add_then_remove array index data :
  (0 <= index <= Z.of_nat (length array))%Z ->
  ops.remove (ops.add array index data).1 index = (array, [data]).
Proof.
  intros Hi. rewrite add_in_range by exact Hi. cbn [fst].
  set (n := Z.to_nat index).
  assert (Htake : n = length (take n array)) by (rewrite length_take; lia).
  rewrite remove_in_range.
  2:{ rewrite length_app, <- Htake. simpl. lia. }
  fold n. f_equal.
  - rewrite take_app_length' by exact Htake.
    replace (S n) with (n + 1) by lia.
    rewrite (drop_app_add' _ _ n 1) by exact Htake.
    change (drop 1 (data :: drop n array)) with (drop n array).
    apply take_drop.
  - rewrite drop_app_length' by exact Htake. reflexivity.
Qed.

(** X10. Taking out the element at an index of the array and adding it
    again at that index gives the array back; the element taken out is the
    one that was at the index. *)
Theorem ops_remove_then_add array index :
  (0 <= index < Z.of_nat (length array))%Z ->
  exists x,
    array !! Z.to_nat index = Some x
    /\ (ops.remove array index).2 = [x]
    /\ (ops.add (ops.remove array index).1 index x).1 = array.
Proof.
  intros Hi. set (n := Z.to_nat index).
  destruct (lookup_lt_is_Some_2 array n) as [x Hx]; [lia|].
  exists x. split; [exact Hx|].
  rewrite remove_in_range by exact Hi. fold n. cbn [fst snd].
  assert (Htake : n = length (take n array)) by (rewrite length_take; lia).
  rewrite (drop_S _ _ _ Hx). split; [reflexivity|].
  rewrite add_in_range.
  2:{ rewrite length_app, <- Htake, length_drop. lia. }
  fold n. cbn [fst].
  rewrite take_app_length' by exact Htake.
  rewrite drop_app_length' by exact Htake.
  apply take_drop_middle. exact Hx.
Qed.

(** X11. At or past the end of the array [ops.remove] removes nothing and
    returns an empty array, and [ops.add] appends. *)
Theorem ops_past_the_end array index data :
  (Z.of_nat (length array) <= index)%Z ->
  ops.remove array index = (array, [])
  /\ ops.add array index data = (array ++ [data], []).
Proof.
  intros Hi. unfold ops.remove, ops.add, splice.
  assert (Hneg : (index <? 0)%Z = false) by (apply Z.ltb_ge; lia).
  rewrite Hneg.
  replace (Z.to_nat (Z.min index (Z.of_nat (length array))))
    with (length array) by lia.
  replace (Z.to_nat (Z.min (Z.max 1 0) (Z.of_nat (length array) -
             Z.min index (Z.of_nat (length array))))) with 0 by lia.
  replace (Z.to_nat (Z.min (Z.max 0 0) (Z.of_nat (length array) -
             Z.min index (Z.of_nat (length array))))) with 0 by lia.
  rewrite Nat.add_0_r, firstn_all, drop_all. simpl.
  rewrite app_nil_r. split; reflexivity.
Qed.

End MutationOps.

(** ** One key at a time *)

Section RegistryLaws.

Variable E : Engines.
Variable pluginOptions : option (gmap string value).

Ltac open_world w :=
  unfold rtdbBind, rtdbUnbind, unbind, bind, mbind, M_bind, mret, M_ret,
    read_unbind, call_handle, delete_source, delete_unbind, set_source,
    set_ref, bound_handle, source_of, ref_of;
  destruct w as [[p refs sources unbinds] tr]; simpl.

Ltac case_engines :=
  repeat match goal with
  | |- context [isArray ?v] => destruct (isArray v) eqn:?
  | |- context [bindAsArray ?e ?k ?s ?o ?p] =>
      destruct (bindAsArray e k s o p) as [[?|?] ?] eqn:?
  | |- context [bindAsObject ?e ?k ?s ?o ?p] =>
      destruct (bindAsObject e k s o p) as [[?|?] ?] eqn:?
  end.

Ltac other_key :=
  repeat split;
  rewrite ?get_set_ne, ?get_delete_ne, ?lookup_insert_ne, ?lookup_delete_ne
    by assumption;
  reflexivity.

Lemma unbind_frame (key k : string) (reset : value) (w : World) :
  key <> k ->
  let w' := (unbind E key reset w).1 in
  bound_handle w' k = bound_handle w k
  /\ source_of w' k = source_of w k
  /\ ref_of w' k = ref_of w k.
Proof.
  intros Hne. open_world w.
  destruct unbinds as [unbinds|]; simpl; [|other_key].
  destruct (Ordered.get unbinds key) as [h|] eqn:Hk; simpl; [|other_key].
  destruct (unsubscribe E h reset p) as [p1 [v|]]; simpl; [other_key|].
  destruct sources as [sources|]; simpl; other_key.
Qed.

Lemma rtdbBind_frame (key k : string) (source : Source)
    (userOptions : option (gmap string value)) (w : World) :
  key <> k ->
  let w' := (rtdbBind E pluginOptions key source userOptions w).1 in
  bound_handle w' k = bound_handle w k
  /\ source_of w' k = source_of w k
  /\ ref_of w' k = ref_of w k.
Proof.
  intros Hne. open_world w.
  destruct unbinds as [unbinds|]; simpl; [|other_key].
  destruct (Ordered.get unbinds key) as [h|] eqn:Hk; simpl.
  - set (arg := if truthy _ then _ else _).
    destruct (unsubscribe E h arg p) as [p1 [v|]] eqn:Hrun; simpl;
      rewrite ?Hk, ?Hrun; simpl; [other_key|].
    destruct sources as [sources|]; simpl; [|other_key].
    case_engines; simpl; destruct refs as [refs|]; simpl; other_key.
  - case_engines; simpl; destruct sources as [sources|]; simpl;
      try destruct refs as [refs|]; simpl; other_key.
Qed.

(** X3. The two public methods work on one key: whatever the outcome of
    [rtdbBind] or [rtdbUnbind] on a key, what the three mappings hold for
    any other key is what they held before. *)
Theorem other_keys_untouched (key k : string) (source : Source)
    (userOptions : option (gmap string value)) (reset : value) (w : World) :
  key <> k ->
  let w1 := (rtdbBind E pluginOptions key source userOptions w).1 in
  let w2 := (rtdbUnbind E key reset w).1 in
  (bound_handle w1 k = bound_handle w k
   /\ source_of w1 k = source_of w k
   /\ ref_of w1 k = ref_of w k)
  /\ (bound_handle w2 k = bound_handle w k
      /\ source_of w2 k = source_of w k
      /\ ref_of w2 k = ref_of w k).
Proof.
  intros Hne. split.
  - apply rtdbBind_frame. exact Hne.
  - apply unbind_frame. exact Hne.
Qed.


(** X4. When the handle of the prior binding throws, [rtdbBind] throws
    what the handle threw and goes no further: no engine is invoked, the
    three mappings are as before, so the key keeps its prior handle and
    source and the new source is not registered. *)
Theorem rebind_failure_keeps_prior_binding (key : string) (source : Source)
    (userOptions : option (gmap string value)) (w : World)
    (h : Handle) (v : value) :
  let arg := rebind_argument (callOptions E pluginOptions userOptions) in
  bound_handle w key = Some h ->
  (unsubscribe E h arg (props (vm w))).2 = Some v ->
  let r := rtdbBind E pluginOptions key source userOptions w in
  r.2 = Throws (Raised v)
  /\ news w r.1 = [EvUnsubscribe h arg]
  /\ firebaseRefs (vm r.1) = firebaseRefs (vm w)
  /\ _firebaseSources (vm r.1) = _firebaseSources (vm w)
  /\ _firebaseUnbinds (vm r.1) = _firebaseUnbinds (vm w).
Proof.
  intros arg Hb Hthrow. cbv zeta.
  destruct (unsubscribe E h arg (props (vm w))) as [p1 thrown] eqn:Hrun.
  simpl in Hthrow. subst thrown.
  rewrite (rtdbBind_rebind_throws E pluginOptions key source userOptions
             w h p1 v Hb Hrun).
  simpl. repeat split. apply news_app. reflexivity.
Qed.

Lemma delete_absent {V : Type} (o : Ordered.obj V) (k : string) :
  Ordered.get o k = None -> Ordered.delete o k = o.
Proof.
  induction o as [|[k' v'] o IH]; simpl; [reflexivity|].
  destruct (String.eqb k' k); [discriminate|].
  intros Hk. rewrite (IH Hk). reflexivity.
Qed.



(** X6. A key can be unbound once: after an [unbind] that returned, the key
    is in neither the unsubscribe nor the source mapping, and another
    [unbind] of it is a TypeError that changes nothing. *)
Theorem unbind_twice_throws (key : string) (reset reset' : value) (w : World) :
  (unbind E key reset w).2 = Returns tt ->
  let w1 := (unbind E key reset w).1 in
  bound_handle w1 key = None
  /\ source_of w1 key = None
  /\ unbind E key reset' w1 = (w1, Throws TypeError).
Proof.
  intros Hret. cbv zeta.
  assert (Hgone : bound_handle (unbind E key reset w).1 key = None
                  /\ source_of (unbind E key reset w).1 key = None).
  { revert Hret. open_world w.
    destruct unbinds as [unbinds|]; simpl; [|discriminate].
    destruct (Ordered.get unbinds key) as [h|] eqn:Hk; simpl; [|discriminate].
    destruct (unsubscribe E h reset p) as [p1 [v|]]; simpl; [discriminate|].
    destruct sources as [sources|]; simpl; [|discriminate].
    intros _. rewrite get_delete_eq, lookup_delete_eq. auto. }
  destruct Hgone as [Hb Hs]. split; [exact Hb|]. split; [exact Hs|].
  apply unbind_unbound. exact Hb.
Qed.

(** X7. A rebind is the unbind of the key, with the reset argument of the
    rebind table, followed by the bind of the then unbound key: the two
    give the same instance, the same trace and the same outcome, and when
    the unbind throws nothing follows it. *)
Theorem rebind_is_unbind_then_bind (key : string) (source : Source)
    (userOptions : option (gmap string value)) (w : World) (h : Handle) :
  bound_handle w key = Some h ->
  rtdbBind E pluginOptions key source userOptions w =
    match rtdbUnbind E key
            (rebind_argument (callOptions E pluginOptions userOptions)) w with
    | (w1, Returns _) => rtdbBind E pluginOptions key source userOptions w1
    | (w1, Throws e) => (w1, Throws e)
    end.
Proof.
  unfold rebind_argument. open_world w.
  destruct unbinds as [unbinds|]; simpl; [|discriminate].
  intros Hk. rewrite Hk. simpl.
  set (arg := if truthy _ then _ else _).
  destruct (unsubscribe E h arg p) as [p1 [v|]] eqn:Hrun; simpl;
    rewrite ?Hk, ?Hrun; simpl; [reflexivity|].
  destruct sources as [sources|]; simpl; [|reflexivity].
  rewrite get_delete_eq. reflexivity.
Qed.

(** X8. Once the three mappings are discarded the public methods are out
    of use: [rtdbBind] and [rtdbUnbind] throw a TypeError without invoking
    an engine or a handle and leave the instance as it is, and another
    [beforeDestroy] returns without calling anything. *)
Theorem discarded_instance_rejects_calls (key : string) (source : Source)
    (userOptions : option (gmap string value)) (reset : value) (w : World) :
  discarded w ->
  rtdbBind E pluginOptions key source userOptions w = (w, Throws TypeError)
  /\ rtdbUnbind E key reset w = (w, Throws TypeError)
  /\ (beforeDestroy E w).2 = Returns tt
  /\ trace (beforeDestroy E w).1 = trace w
  /\ discarded (beforeDestroy E w).1.
Proof.
  intros (HR & HS & HU). split; [|split].
  - apply rtdbBind_null. exact HU.
  - apply unbind_unbound. unfold bound_handle. rewrite HU. reflexivity.
  - rewrite beforeDestroy_unfold, HU. simpl. unfold discarded. simpl. auto.
Qed.

End RegistryLaws.

(** ** Creation *)

Section CreationLaws.

Variable E : Engines.
Variable pluginOptions : option (gmap string value).





End CreationLaws.

(** ** The instance's properties *)

Section PropsLaws.

Variable E : Engines.
Variable pluginOptions : option (gmap string value).
Hypothesis Hinert : inert E.

Ltac inert_engines :=
  destruct Hinert as (HA & HO & HU);
  repeat match goal with
  | |- context [bindAsArray E ?k ?s ?o ?p] =>
      let H := fresh in
      assert (H := HA k s o p);
      destruct (bindAsArray E k s o p) as [? ?]; simpl in H; subst
  | |- context [bindAsObject E ?k ?s ?o ?p] =>
      let H := fresh in
      assert (H := HO k s o p);
      destruct (bindAsObject E k s o p) as [? ?]; simpl in H; subst
  | |- context [unsubscribe E ?h ?r ?p] =>
      let H := fresh in
      assert (H := HU h r p);
      destruct (unsubscribe E h r p) as [? [?|]]; simpl in H; subst
  end.

Lemma unbind_props (key : string) (reset : value) (w : World) :
  props (vm (unbind E key reset w).1) = props (vm w).
Proof.
  unfold unbind, mbind, M_bind, read_unbind, call_handle, delete_source,
    delete_unbind.
  destruct w as [[p refs sources unbinds] tr]; simpl.
  destruct unbinds as [unbinds|]; simpl; [|reflexivity].
  destruct (Ordered.get unbinds key) as [h|]; simpl; [|reflexivity].
  inert_engines; simpl; [reflexivity|].
  destruct sources as [sources|]; reflexivity.
Qed.

Lemma bind_props (key : string) (source : Source) (options : gmap string value)
    (w : World) :
  props (vm (bind E key source options w).1) = props (vm w).
Proof.
  unfold bind. destruct (isArray (prop (props (vm w)) key));
    inert_engines;
    match goal with |- context [match ?res with Subscribed _ => _ | Failed _ => _ end] =>
      destruct res
    end;
    destruct (_firebaseUnbinds (vm w)); reflexivity.
Qed.

Lemma rtdbBind_props (key : string) (source : Source)
    (userOptions : option (gmap string value)) (w : World) :
  props (vm (rtdbBind E pluginOptions key source userOptions w).1) = props (vm w).
Proof.
  unfold rtdbBind, mbind at 1, M_bind at 1, read_unbind.
  destruct (_firebaseUnbinds (vm w)) as [unbinds|] eqn:HU; [|reflexivity].
  unfold mbind at 1, M_bind at 1.
  set (arg := if truthy _ then _ else _).
  assert (Hun : forall r : World * outcome unit,
            r = (if Ordered.get unbinds key is Some _
                 then rtdbUnbind E key arg else mret tt) w ->
            props (vm r.1) = props (vm w)).
  { intros r ->. destruct (Ordered.get unbinds key); [|reflexivity].
    apply unbind_props. }
  specialize (Hun _ eq_refl).
  destruct ((if Ordered.get unbinds key is Some _
             then rtdbUnbind E key arg else mret tt) w) as [w1 [[]|e]];
    cbn [fst snd] in Hun; [|exact Hun].
  unfold mbind, M_bind, mret, M_ret.
  assert (Hb := bind_props key source (callOptions E pluginOptions userOptions) w1).
  destruct (bind E key source (callOptions E pluginOptions userOptions) w1)
    as [w2 [pr|e]]; cbn [fst snd] in *; [|congruence].
  unfold set_source, set_ref.
  destruct w2 as [[p2 refs2 sources2 unbinds2] tr2]. simpl in *.
  destruct sources2, refs2; simpl; congruence.
Qed.

Lemma teardown_props (key : string) (w : World) :
  props (vm (teardown E key w).1) = props (vm w).
Proof.
  unfold teardown, mbind, M_bind, read_unbind, call_handle.
  destruct (_firebaseUnbinds (vm w)) as [unbinds|]; simpl; [|reflexivity].
  destruct (Ordered.get unbinds key) as [h|]; simpl; [|reflexivity].
  inert_engines; reflexivity.
Qed.

Lemma perform_props (c : call) (w : World) :
  props (vm (perform E pluginOptions c w).1) = props (vm w).
Proof.
  destruct c as [|firebase|key source userOptions|key reset|]; simpl.
  - reflexivity.
  - unfold created.
    destruct (match firebase with
              | Some (Bindings b) => Some b
              | Some (Producer f) => f (vm w)
              | None => None
              end) as [b|]; [|reflexivity].
    apply (for_each_preserves (fun w' => props (vm w') = props (vm w)));
      [|reflexivity].
    intros key w1 _ Hw1. destruct (Ordered.get b key) as [source|]; [|exact Hw1].
    unfold mbind, M_bind.
    assert (H := rtdbBind_props key source (Some (globalOptions E pluginOptions)) w1).
    destruct (rtdbBind E pluginOptions key source
                (Some (globalOptions E pluginOptions)) w1) as [w2 [pr|e]];
      simpl in *; congruence.
  - unfold mbind, M_bind.
    assert (H := rtdbBind_props key source userOptions w).
    destruct (rtdbBind E pluginOptions key source userOptions w) as [w1 [pr|e]];
      exact H.
  - apply unbind_props.
  - rewrite beforeDestroy_unfold.
    assert (H : props (vm (for_each
                  (from_option Ordered.own_keys [] (_firebaseUnbinds (vm w)))
                  (teardown E) w).1) = props (vm w)).
    { apply (for_each_preserves (fun w' => props (vm w') = props (vm w)));
        [|reflexivity].
      intros key w1 _ Hw1. rewrite teardown_props. exact Hw1. }
    destruct (for_each _ (teardown E) w) as [w1 [[]|e]]; exact H.
Qed.

(** X13. The orchestration never writes a property of the instance
    itself: with engines and handles that leave the properties alone, the
    properties after any history of hooks and public calls, returning or
    throwing, are the properties before it. Every change of a bound
    property is the doing of an engine or of a handle. *)
Theorem properties_written_by_engines_only (cs : list call) (w : World) :
  props (vm (run E pluginOptions cs w)) = props (vm w).
Proof.
  revert w. induction cs as [|c cs IH]; intros w; simpl; [reflexivity|].
  rewrite IH. apply perform_props.
Qed.

End PropsLaws.

(** ** Options that are not given *)

(** X14. Options that are not given change nothing: without plugin
    options the plugin-wide options are the defaults, without call options
    the effective options are the plugin-wide ones, and the options
    [created] passes (the plugin-wide options themselves) make the
    effective options of a declared binding the plugin-wide ones. *)
Theorem omitted_options_change_nothing
    (E : Engines) (pluginOptions : option (gmap string value)) :
  globalOptions E None = defaultOptions E
  /\ callOptions E pluginOptions None = globalOptions E pluginOptions
  /\ callOptions E pluginOptions (Some (globalOptions E pluginOptions))
     = globalOptions E pluginOptions.
Proof.
  split; [|split]; apply map_eq; intros k.
  - unfold globalOptions. rewrite Object_assign_two. simpl.
    destruct (defaultOptions E !! k); reflexivity.
  - unfold callOptions.
    rewrite (Object_assign_two (globalOptions E pluginOptions) None k).
    reflexivity.
  - unfold callOptions.
    rewrite (Object_assign_two (globalOptions E pluginOptions)
               (Some (globalOptions E pluginOptions)) k).
    destruct (globalOptions E pluginOptions !! k); reflexivity.
Qed.

(** ** The further properties on the concrete setting *)

Lemma ops_add_then_remove_witness :
  (0 <= 1 <= Z.of_nat (length [VNum 10; VNum 30]))%Z
  /\ ops.remove (ops.add [VNum 10; VNum 30] 1 (VNum 20)).1 1
     = ([VNum 10; VNum 30], [VNum 20]).
Proof.
  assert (H : (0 <= 1 <= Z.of_nat (length [VNum 10; VNum 30]))%Z) by (simpl; lia).
  split; [exact H|]. exact (ops_add_then_remove _ 1 (VNum 20) H).
Defined.

Lemma ops_remove_then_add_witness :
  (0 <= 0 < Z.of_nat (length [VNum 10; VNum 30]))%Z
  /\ exists x,
       [VNum 10; VNum 30] !! Z.to_nat 0 = Some x
       /\ (ops.remove [VNum 10; VNum 30] 0).2 = [x]
       /\ (ops.add (ops.remove [VNum 10; VNum 30] 0).1 0 x).1 = [VNum 10; VNum 30].
Proof.
  assert (H : (0 <= 0 < Z.of_nat (length [VNum 10; VNum 30]))%Z) by (simpl; lia).
  split; [exact H|]. exact (ops_remove_then_add _ 0 H).
Defined.

Lemma ops_past_the_end_witness :
  (Z.of_nat (length [VNum 10; VNum 30]) <= 5)%Z
  /\ ops.remove [VNum 10; VNum 30] 5 = ([VNum 10; VNum 30], [])
  /\ ops.add [VNum 10; VNum 30] 5 (VNum 40)
     = ([VNum 10; VNum 30] ++ [VNum 40], []).
Proof.
  assert (H : (Z.of_nat (length [VNum 10; VNum 30]) <= 5)%Z) by (simpl; lia).
  split; [exact H|]. exact (ops_past_the_end _ 5 (VNum 40) H).
Defined.

Lemma other_keys_untouched_witness :
  let w := Demo.declared Demo.sound in
  "profile" <> "items"
  /\ bound_handle
       (rtdbBind Demo.sound None "profile" (Reference "users/2") None w).1 "items"
     = Some 1
  /\ source_of (rtdbUnbind Demo.sound "profile" VUndefined w).1 "items"
     = Some (Query "i" "limitToLast(10)").
Proof.
  intros w.
  assert (Hne : "profile" <> "items") by discriminate.
  destruct (other_keys_untouched Demo.sound None "profile" "items"
              (Reference "users/2") None VUndefined w Hne)
    as [(Hb & _ & _) (_ & Hs & _)].
  split; [exact Hne|]. split.
  - rewrite Hb. vm_compute. reflexivity.
  - rewrite Hs. vm_compute. reflexivity.
Defined.


Lemma rebind_failure_keeps_prior_binding_witness :
  let w := Demo.declared Demo.brittle in
  let r := rtdbBind Demo.brittle None "items" (Reference "other") None w in
  bound_handle w "items" = Some 1
  /\ r.2 = Throws (Raised (VStr "detach failed"))
  /\ _firebaseSources (vm r.1) = _firebaseSources (vm w)
  /\ _firebaseUnbinds (vm r.1) = _firebaseUnbinds (vm w).
Proof.
  intros w r.
  assert (Hb : bound_handle w "items" = Some 1) by (vm_compute; reflexivity).
  destruct (rebind_failure_keeps_prior_binding Demo.brittle None "items"
              (Reference "other") None w 1 (VStr "detach failed") Hb eq_refl)
    as (Hr & _ & _ & Hs & Hu).
  split; [exact Hb|]. split; [exact Hr|]. split; [exact Hs | exact Hu].
Defined.


Lemma unbind_twice_throws_witness :
  let w := Demo.profile_bound Demo.sound in
  let w1 := (unbind Demo.sound "profile" VUndefined w).1 in
  (unbind Demo.sound "profile" VUndefined w).2 = Returns tt
  /\ unbind Demo.sound "profile" VUndefined w1 = (w1, Throws TypeError).
Proof.
  intros w w1.
  assert (Hret : (unbind Demo.sound "profile" VUndefined w).2 = Returns tt)
    by (vm_compute; reflexivity).
  destruct (unbind_twice_throws Demo.sound "profile" VUndefined VUndefined w Hret)
    as (_ & _ & Hagain).
  split; [exact Hret | exact Hagain].
Defined.

Lemma rebind_is_unbind_then_bind_witness :
  let w := Demo.profile_bound Demo.sound in
  bound_handle w "profile" = Some 7
  /\ rtdbBind Demo.sound None "profile" (Reference "users/22") None w =
       match rtdbUnbind Demo.sound "profile"
               (rebind_argument (callOptions Demo.sound None None)) w with
       | (w1, Returns _) =>
           rtdbBind Demo.sound None "profile" (Reference "users/22") None w1
       | (w1, Throws e) => (w1, Throws e)
       end.
Proof.
  intros w.
  assert (Hb : bound_handle w "profile" = Some 7) by (vm_compute; reflexivity).
  split; [exact Hb|].
  exact (rebind_is_unbind_then_bind Demo.sound None "profile"
           (Reference "users/22") None w 7 Hb).
Defined.

Lemma discarded_instance_rejects_calls_witness :
  let w := (beforeDestroy Demo.sound (Demo.declared Demo.sound)).1 in
  discarded w
  /\ rtdbBind Demo.sound None "items" (Reference "i") None w = (w, Throws TypeError)
  /\ rtdbUnbind Demo.sound "items" VUndefined w = (w, Throws TypeError)
  /\ (beforeDestroy Demo.sound w).2 = Returns tt.
Proof.
  intros w.
  assert (Hgone : discarded w) by (vm_compute; repeat split; reflexivity).
  destruct (discarded_instance_rejects_calls Demo.sound None "items"
              (Reference "i") None VUndefined w Hgone)
    as (Hbind & Hunbind & Hagain & _).
  split; [exact Hgone|]. split; [exact Hbind|].
  split; [exact Hunbind | exact Hagain].
Defined.


Lemma properties_written_by_engines_only_witness :
  let cs := [CallBeforeCreate;
             CallCreated (Some (Bindings [("items", Reference "i")]));
             CallBind "items" (Reference "j") None;
             CallUnbind "items" (VBool true);
             CallBeforeDestroy] in
  inert quiet_engines
  /\ props (vm (run quiet_engines None cs Demo.component))
     = props (vm Demo.component).
Proof.
  intros cs.
  assert (H : inert quiet_engines) by (repeat split).
  split; [exact H|].
  exact (properties_written_by_engines_only quiet_engines None H cs Demo.component).
Defined.

(** ** Engines that return their handle *)

Section DependableLaws.

Variable E : Engines.
Variable pluginOptions : option (gmap string value).
Hypothesis Hdep : dependable E.

Lemma engine_run_subscribes (key : string) (source : Source)
    (options p : gmap string value) :
  exists h, (engine_run E key source options p).1.1 = Subscribed h.
Proof.
  unfold engine_run. destruct Hdep as [HA HO].
  destruct (isArray (prop p key)); simpl; [apply HA | apply HO].
Qed.

Ltac in_step_facts :=
  unfold registry_in_step, bound_handle, source_of in *; simpl in *.

Ltac at_key k key :=
  destruct (decide (key = k)) as [->|];
  [ rewrite ?get_set_eq, ?get_delete_eq, ?lookup_insert_eq, ?lookup_delete_eq
  | rewrite ?get_set_ne, ?get_delete_ne, ?lookup_insert_ne, ?lookup_delete_ne
      by assumption ].

Lemma unbind_in_step (key : string) (reset : value) (w : World) :
  registry_in_step w -> registry_in_step (unbind E key reset w).1.
Proof.
  intros Hstep.
  destruct (bound_handle w key) as [h|] eqn:Hb.
  2:{ rewrite (unbind_unbound E key reset w Hb). exact Hstep. }
  destruct (unsubscribe E h reset (props (vm w))) as [p' [v|]] eqn:Hrun.
  { rewrite (unbind_handle_throws E key reset w h p' v Hb Hrun). exact Hstep. }
  assert (Hs : is_Some (source_of w key)) by (apply Hstep; rewrite Hb; eauto).
  unfold bound_handle in Hb. unfold source_of in Hs.
  destruct (_firebaseUnbinds (vm w)) as [unbinds|] eqn:HU; [|discriminate].
  destruct (_firebaseSources (vm w)) as [sources|] eqn:HS;
    [|destruct Hs; discriminate].
  simpl in Hb.
  rewrite (unbind_handle_returns E key reset w h p' unbinds sources HU HS Hb Hrun).
  in_step_facts. rewrite HU, HS in Hstep. simpl in Hstep.
  intros k. at_key k key; [|apply Hstep].
  split; intros [? ?]; discriminate.
Qed.

Lemma rtdbBind_in_step (key : string) (source : Source)
    (userOptions : option (gmap string value)) (w : World) :
  consistent w -> registry_in_step w ->
  registry_in_step (rtdbBind E pluginOptions key source userOptions w).1.
Proof.
  intros ([Hlive|Hgone] & _) Hstep.
  2:{ destruct Hgone as (_ & _ & HU).
      rewrite (rtdbBind_null E pluginOptions key source userOptions w HU).
      exact Hstep. }
  destruct Hlive as ([refs HR] & [sources HS] & [unbinds HU]).
  destruct (Ordered.get unbinds key) as [h|] eqn:Hk.
  - destruct (unsubscribe E h
                (rebind_argument (callOptions E pluginOptions userOptions))
                (props (vm w))) as [p1 [v|]] eqn:Hrun.
    + rewrite (rtdbBind_rebind_throws E pluginOptions key source userOptions
                 w h p1 v); [| unfold bound_handle; rewrite HU; exact Hk | exact Hrun].
      exact Hstep.
    + rewrite (rtdbBind_rebind_returns E pluginOptions key source userOptions
                 w refs sources unbinds h p1 HR HS HU Hk Hrun).
      cbv zeta.
      destruct (engine_run_subscribes key source
                  (callOptions E pluginOptions userOptions) p1) as [h' Hres].
      destruct (engine_run E key source (callOptions E pluginOptions userOptions) p1)
        as [[res p] ev]. simpl in Hres. subst res.
      in_step_facts. rewrite HU, HS in Hstep. simpl in Hstep.
      intros k. at_key k key; [split; eauto | apply Hstep].
  - rewrite (rtdbBind_fresh E pluginOptions key source userOptions
               w refs sources unbinds HR HS HU Hk).
    cbv zeta.
    destruct (engine_run_subscribes key source
                (callOptions E pluginOptions userOptions) (props (vm w)))
      as [h' Hres].
    destruct (engine_run E key source (callOptions E pluginOptions userOptions)
                (props (vm w))) as [[res p] ev]. simpl in Hres. subst res.
    in_step_facts. rewrite HU, HS in Hstep. simpl in Hstep.
    intros k. at_key k key; [split; eauto | apply Hstep].
Qed.

Lemma perform_in_step (c : call) (w : World) :
  consistent w /\ registry_in_step w ->
  consistent (perform E pluginOptions c w).1
  /\ registry_in_step (perform E pluginOptions c w).1.
Proof.
  intros [Hw Hstep]. split; [apply perform_consistent; exact Hw|].
  destruct c as [|firebase|key source userOptions|key reset|]; simpl.
  - intros k. in_step_facts. split; intros [? ?]; discriminate.
  - unfold created.
    destruct (match firebase with
              | Some (Bindings b) => Some b
              | Some (Producer f) => f (vm w)
              | None => None
              end) as [b|]; [|exact Hstep].
    apply (for_each_preserves
             (fun w' => consistent w' /\ registry_in_step w')); [|auto].
    intros key w1 _ [Hw1 Hs1].
    destruct (Ordered.get b key) as [source|]; [|auto].
    unfold mbind, M_bind.
    assert (H1 := rtdbBind_consistent E pluginOptions key source
                    (Some (globalOptions E pluginOptions)) w1 Hw1).
    assert (H2 := rtdbBind_in_step key source
                    (Some (globalOptions E pluginOptions)) w1 Hw1 Hs1).
    destruct (rtdbBind E pluginOptions key source
                (Some (globalOptions E pluginOptions)) w1) as [w2 [pr|e]]; auto.
  - unfold mbind, M_bind.
    assert (H := rtdbBind_in_step key source userOptions w Hw Hstep).
    destruct (rtdbBind E pluginOptions key source userOptions w) as [w1 [pr|e]];
      exact H.
  - apply unbind_in_step. exact Hstep.
  - rewrite beforeDestroy_unfold.
    destruct (_firebaseUnbinds (vm w)) as [unbinds|] eqn:HU; simpl.
    + destruct (teardown_loop E unbinds (Ordered.own_keys unbinds) w HU)
        as (_ & HS & HU' & _).
      destruct (for_each (Ordered.own_keys unbinds) (teardown E) w)
        as [w1 [[]|e]]; simpl in *.
      * intros k. in_step_facts. split; intros [? ?]; discriminate.
      * in_step_facts. rewrite HS, HU', <- HU. exact Hstep.
    + intros k. in_step_facts. split; intros [? ?]; discriminate.
Qed.

(** X15. With engines that return their handle, the unsubscribe mapping and
    the source mapping have the same keys after [beforeCreate] and any
    history of calls, whether the calls returned or threw. *)
Theorem registry_in_step_at_boundaries (cs : list call) (w : World) :
  registry_in_step (run E pluginOptions cs (beforeCreate w).1).
Proof.
  assert (H0 : consistent (beforeCreate w).1 /\ registry_in_step (beforeCreate w).1).
  { split; [apply beforeCreate_consistent|].
    intros k. in_step_facts. split; intros [? ?]; discriminate. }
  revert H0. generalize (beforeCreate w).1.
  induction cs as [|c cs IH]; intros w1 Hw1; simpl; [apply Hw1|].
  apply IH. apply perform_in_step. exact Hw1.
Qed.

End DependableLaws.

Lemma registry_in_step_at_boundaries_witness :
  let cs := [CallCreated (Some (Bindings [("items", Reference "i")]));
             CallBind "items" (Reference "j") None;
             CallBind "profile" (Reference "me") None;
             CallUnbind "items" (VBool true)] in
  dependable Demo.sound
  /\ registry_in_step (run Demo.sound None cs (beforeCreate Demo.component).1).
Proof.
  intros cs.
  assert (Hdep : dependable Demo.sound) by (split; intros; eexists; reflexivity).
  split; [exact Hdep|].
  exact (registry_in_step_at_boundaries Demo.sound None Hdep cs Demo.component).
Defined.

(** An engine that throws: the promise of [rtdbBind] is rejected with what
    the engine threw and the key gets no handle, and yet the source and the
    reference are written. *)
Example engine_failure_leaves_source_without_handle :
  let r := rtdbBind strict_engines None "profile" (Reference "") None Demo.started in
  r.2 = Returns (Rejected (Raised (VStr "permission denied")))
  /\ bound_handle r.1 "profile" = None
  /\ source_of r.1 "profile" = Some (Reference "")
  /\ ref_of r.1 "profile" = Some ""
  /\ news Demo.started r.1 =
       [EvBindAsObject "profile" (Reference "") (callOptions strict_engines None None)].
Proof. vm_compute. repeat split; reflexivity. Qed.
